(** * HAKO loader: bytecode registry, runtime life cycle, extension catalog

    A shallow embedding of the two [loader.c] variants of the repository
    (the threaded loader with [g_vm_mutex] and the supervisor thread, and the
    original blocking loader), of [hako/loader.h] and of [hako/extension.h],
    followed by the properties of the design document that concern them.

    Conventions.
    - A C pointer is a number, [NULL] is [0].  A [const char *] is the
      string it points to, [None] standing for the null pointer; [strcmp]
      is equality of the pointed strings.
    - The globals of [loader.c] are the fields of the record [loader]; every
      function takes the record and returns the new one.  Calls are
      sequential: each facade call holds [g_vm_mutex] while it touches the
      globals, so calls of different threads are serialised.
    - Behaviour that C leaves undefined (reading past the caller's table,
      [strcmp] on a null slot name, calling a null function pointer) is the
      result [None].
    - The interpreter (mruby/c), the Zephyr kernel and the extension
      callbacks are outside the repository: they are an interface
      ([Interpreter]) with one state type and one function per entry
      point that the loader calls. *)

From Stdlib Require Import ZArith Lia.
From stdpp Require Import base list strings.

Local Open Scope Z_scope.
Local Open Scope string_scope.

(** ** Constants and plain data *)

Definition pointer := N.
Definition NULL : pointer := 0%N.

(** [errno] values of Zephyr's libc, used negated as return codes. *)
Definition EIO : Z := 5.
Definition ENOMEM : Z := 12.
Definition EINVAL : Z := 22.

Definition MAX_BYTECODE_MODULES : nat := 32.

(** [struct hako_bytecode_entry] of loader.h; the slots of
    [g_bytecode_registry] have the same two fields. *)
Record hako_bytecode_entry := BytecodeEntry {
  name : option string;
  bytecode : pointer
}.

Definition empty_slot : hako_bytecode_entry := BytecodeEntry None NULL.

(** [struct hako_extension_entry] of extension.h.  [priority] is a
    [uint8_t]; [init] is a function pointer. *)
Record hako_extension_entry := ExtensionEntry {
  ext_name : string;
  init : option pointer;
  priority : Z
}.

Definition HAKO_EXTENSION_PRIORITY_DEFAULT : Z := 50.
Definition HAKO_EXTENSION_PRIORITY_EARLY : Z := 10.
Definition HAKO_EXTENSION_PRIORITY_LATE : Z := 90.

Inductive log_level := LOG_ERR | LOG_WRN | LOG_INF | LOG_DBG.

(** A log record keeps the level and the format string of the call. *)
Definition log_record : Type := log_level * string.

Inductive mrbc_class := MRBC_Object | MRBC_Task | MRBC_Mutex | MRBC_VM.

(** ** The external engine *)

Class Interpreter := {
  (** state of the interpreter, of its scheduler and of everything the
      extension callbacks touch *)
  mrbc : Type;
  (** [mrbc_init(g_memory_pool, CONFIG_HAKO_MEMORY_SIZE)] *)
  mrbc_init : mrbc -> mrbc;
  (** [mrbc_create_task(bytecode, NULL)]: the new tcb, or [NULL] *)
  mrbc_create_task : pointer -> mrbc -> pointer * mrbc;
  mrbc_set_task_name : pointer -> string -> mrbc -> mrbc;
  mrbc_str_to_symid : string -> mrbc -> Z * mrbc;
  (** [mrbc_find_method(&method, cls, sym)]: [None] when the method is
      missing, else the [func] field of the method found *)
  mrbc_find_method : mrbc_class -> Z -> mrbc -> option pointer;
  mrbc_define_method : mrbc_class -> string -> pointer -> mrbc -> mrbc;
  (** original loader only *)
  mrbc_init_alloc : mrbc -> mrbc;
  mrbc_init_global : mrbc -> mrbc;
  mrbc_init_class : mrbc -> mrbc;
  (** [mrbc_vm_open(NULL)]: the new VM, or [NULL] *)
  mrbc_vm_open : mrbc -> pointer * mrbc;
  (** calling the function a callback pointer designates *)
  call_init : pointer -> mrbc -> mrbc
}.

(** The counting loop of [hako_init_extensions], the same in both
    loaders: [count++] for every entry from [__hako_extensions_start] to
    [__hako_extensions_end]. *)
Fixpoint count_extensions (section : list hako_extension_entry) (count : nat)
  : nat :=
  match section with
  | [] => count
  | _ :: rest => count_extensions rest (S count)
  end.

(** ** The threaded loader *)

Module Loader.
Section WithInterpreter.
Context `{Interpreter}.

(** The globals of loader.c, then what the loader does to its
    environment: the interpreter, the threads created with
    [k_thread_create], the log, and the extension entries whose callback
    has been called (by their index in the [.hako_extensions] section). *)
Record loader := Build {
  g_bytecode_registry : list hako_bytecode_entry;
  g_bytecode_count : nat;
  g_vm_initialized : bool;
  g_vm : pointer;
  g_vm_thread_started : bool;
  g_core_methods_registered : bool;
  vm : mrbc;
  spawned : nat;
  zlog : list log_record;
  ext_invoked : list nat
}.

(** State at boot: zero-initialised statics. *)
Definition boot (m : mrbc) : loader :=
  Build (replicate MAX_BYTECODE_MODULES empty_slot) 0 false NULL false false
        m 0 [] [].

Definition klog (lvl : log_level) (msg : string) (s : loader) : loader :=
  Build (g_bytecode_registry s) (g_bytecode_count s) (g_vm_initialized s)
        (g_vm s) (g_vm_thread_started s) (g_core_methods_registered s)
        (vm s) (spawned s) (zlog s ++ [(lvl, msg)]) (ext_invoked s).

Definition with_vm (m : mrbc) (s : loader) : loader :=
  Build (g_bytecode_registry s) (g_bytecode_count s) (g_vm_initialized s)
        (g_vm s) (g_vm_thread_started s) (g_core_methods_registered s)
        m (spawned s) (zlog s) (ext_invoked s).

(** ** [hako_register_core_methods] *)

Definition method_table : list (mrbc_class * string) :=
  [ (MRBC_Object, "sleep"); (MRBC_Object, "sleep_ms");
    (MRBC_Task, "create"); (MRBC_Task, "current"); (MRBC_Task, "get");
    (MRBC_Task, "join"); (MRBC_Task, "list"); (MRBC_Task, "name");
    (MRBC_Task, "name="); (MRBC_Task, "name_list"); (MRBC_Task, "pass");
    (MRBC_Task, "priority"); (MRBC_Task, "priority="); (MRBC_Task, "raise");
    (MRBC_Task, "resume"); (MRBC_Task, "rewind"); (MRBC_Task, "run");
    (MRBC_Task, "status"); (MRBC_Task, "suspend"); (MRBC_Task, "terminate");
    (MRBC_Task, "value");
    (MRBC_Mutex, "new"); (MRBC_Mutex, "lock"); (MRBC_Mutex, "unlock");
    (MRBC_Mutex, "try_lock"); (MRBC_Mutex, "locked?"); (MRBC_Mutex, "owned?");
    (MRBC_VM, "tick") ].

Fixpoint register_methods (tbl : list (mrbc_class * string)) (s : loader)
  : loader :=
  match tbl with
  | [] => s
  | (cls, nm) :: tbl' =>
      let '(sym, m1) := mrbc_str_to_symid nm (vm s) in
      match mrbc_find_method cls sym m1 with
      | None =>
          register_methods tbl' (klog LOG_WRN "Core method missing: %s" (with_vm m1 s))
      | Some func =>
          if N.eqb func NULL then register_methods tbl' (with_vm m1 s)
          else register_methods tbl'
                 (with_vm (mrbc_define_method cls nm func m1) s)
      end
  end.

Definition hako_register_core_methods (s : loader) : loader :=
  if g_core_methods_registered s then s
  else
    let s1 := register_methods method_table s in
    Build (g_bytecode_registry s1) (g_bytecode_count s1) (g_vm_initialized s1)
          (g_vm s1) (g_vm_thread_started s1) true
          (vm s1) (spawned s1) (zlog s1) (ext_invoked s1).

(** ** [hako_init]

    The call of [hako_init_extensions] at the end of the function is
    commented out in the source, so the model has none. *)
Definition hako_init (s : loader) : Z * loader :=
  if g_vm_initialized s then
    (0, klog LOG_WRN "HAKO VM already initialized" s)
  else
    let s1 := hako_register_core_methods (with_vm (mrbc_init (vm s)) s) in
    let s2 :=
      Build (g_bytecode_registry s1) 0 true
            (g_vm s1) false (g_core_methods_registered s1)
            (vm s1) (spawned s1) (zlog s1) (ext_invoked s1) in
    (0, klog LOG_INF "HAKO VM initialized (memory: %d bytes)" s2).

(** ** [hako_load_registry] *)

(** [g_bytecode_registry[g_bytecode_count] = {name, bytecode};
    g_bytecode_count++] *)
Definition registry_append (nm : string) (bc : pointer) (s : loader) : loader :=
  Build (<[g_bytecode_count s := BytecodeEntry (Some nm) bc]> (g_bytecode_registry s))
        (S (g_bytecode_count s)) (g_vm_initialized s)
        (g_vm s) (g_vm_thread_started s) (g_core_methods_registered s)
        (vm s) (spawned s) (zlog s) (ext_invoked s).

(** How a loop body ends: fall through to the code after the loop, or
    [return] from the function. *)
Inductive flow := Next | Return (code : Z).

(** The [for] loop of [hako_load_registry].  [registry] is the caller's
    table from [registry[i]] on and [count] is [count - i]. *)
Fixpoint registry_loop (registry : list hako_bytecode_entry) (count : nat)
  (s : loader) {struct count} : option (flow * loader) :=
  match count with
  | O => Some (Next, s)
  | S count' =>
      match registry with
      | [] => None
      | e :: rest =>
          match name e with
          | None => Some (Next, s)
          | Some nm =>
              if N.eqb (bytecode e) NULL then
                registry_loop rest count'
                  (klog LOG_WRN "Skipping module '%s': NULL bytecode" s)
              else if Nat.ltb (g_bytecode_count s) MAX_BYTECODE_MODULES then
                registry_loop rest count'
                  (klog LOG_DBG "Registered module: %s"
                     (registry_append nm (bytecode e) s))
              else
                Some (Return (- ENOMEM),
                      klog LOG_ERR "Bytecode registry full (max %d modules)" s)
          end
      end
  end.

(** [registry] is [None] for a null table pointer. *)
Definition hako_load_registry (registry : option (list hako_bytecode_entry))
  (count : nat) (s : loader) : option (Z * loader) :=
  if negb (g_vm_initialized s) then
    Some (- EINVAL, klog LOG_ERR "VM not initialized. Call hako_init() first" s)
  else
    match registry with
    | None => Some (- EINVAL, klog LOG_ERR "Invalid registry pointer" s)
    | Some tbl =>
        match registry_loop tbl count
                (klog LOG_INF "Loading bytecode registry: %zu modules" s) with
        | None => None
        | Some (Return code, s') => Some (code, s')
        | Some (Next, s') =>
            Some (0, klog LOG_INF "Successfully registered %zu modules" s')
        end
    end.

(** ** [hako_find_bytecode] *)

Inductive scan := Found (bc : pointer) | NotFound.

(** The [for] loop of [hako_find_bytecode_locked]: [slots] is
    [g_bytecode_registry] from index [i] on, [remaining] is
    [g_bytecode_count - i]. *)
Fixpoint find_loop (slots : list hako_bytecode_entry) (remaining : nat)
  (nm : string) {struct remaining} : option scan :=
  match remaining with
  | O => Some NotFound
  | S remaining' =>
      match slots with
      | [] => None
      | e :: rest =>
          match name e with
          | None => None
          | Some slot_name =>
              if String.eqb slot_name nm then Some (Found (bytecode e))
              else find_loop rest remaining' nm
          end
      end
  end.

Definition hako_find_bytecode_locked (nm : option string) (s : loader)
  : option (pointer * loader) :=
  match nm with
  | None => Some (NULL, s)
  | Some n =>
      match find_loop (g_bytecode_registry s) (g_bytecode_count s) n with
      | None => None
      | Some (Found bc) => Some (bc, klog LOG_DBG "Found bytecode: %s" s)
      | Some NotFound => Some (NULL, klog LOG_DBG "Bytecode not found: %s" s)
      end
  end.

Definition hako_find_bytecode (nm : option string) (s : loader)
  : option (pointer * loader) :=
  hako_find_bytecode_locked nm s.

(** ** [hako_load_bytecode] *)

Definition set_g_vm (p : pointer) (s : loader) : loader :=
  Build (g_bytecode_registry s) (g_bytecode_count s) (g_vm_initialized s)
        p (g_vm_thread_started s) (g_core_methods_registered s)
        (vm s) (spawned s) (zlog s) (ext_invoked s).

(** [g_vm = &tcb->vm] is recorded as the tcb the VM lies in. *)
Definition hako_load_bytecode_locked (nm : option string) (bc : pointer)
  (s : loader) : Z * loader :=
  let '(tcb, m1) := mrbc_create_task bc (vm s) in
  if N.eqb tcb NULL then
    (- ENOMEM, klog LOG_ERR "Failed to create task for %s" (with_vm m1 s))
  else
    let m2 := match nm with
              | Some n => mrbc_set_task_name tcb n m1
              | None => m1
              end in
    let s1 := with_vm m2 s in
    let s2 := if N.eqb (g_vm s1) NULL then set_g_vm tcb s1 else s1 in
    (0, klog LOG_INF "Loaded bytecode: %s" s2).

Definition hako_load_bytecode (nm : option string) (bc : pointer) (s : loader)
  : Z * loader :=
  if negb (g_vm_initialized s) then
    (- EINVAL, klog LOG_ERR "VM not initialized" s)
  else if N.eqb bc NULL then
    (- EINVAL, klog LOG_ERR "Invalid bytecode pointer" s)
  else hako_load_bytecode_locked nm bc s.

(** ** [hako_start_vm_thread] and [hako_run] *)

(** [k_thread_create(&g_vm_thread, ..., hako_vm_thread, ...)],
    [k_thread_name_set] and [g_vm_thread_started = true]. *)
Definition spawn_vm_thread (s : loader) : loader :=
  Build (g_bytecode_registry s) (g_bytecode_count s) (g_vm_initialized s)
        (g_vm s) true (g_core_methods_registered s)
        (vm s) (S (spawned s)) (zlog s) (ext_invoked s).

Definition hako_start_vm_thread (s : loader) : option (Z * loader) :=
  if negb (g_vm_initialized s) then
    Some (- EINVAL, klog LOG_ERR "VM not initialized" s)
  else if g_vm_thread_started s then Some (0, s)
  else
    match hako_find_bytecode_locked (Some "main") s with
    | None => None
    | Some (main_bytecode, s1) =>
        if N.eqb main_bytecode NULL then
          Some (0, spawn_vm_thread
                     (klog LOG_WRN
                        "Main bytecode not found; VM thread will idle until tasks are created"
                        s1))
        else
          let '(ret, s2) := hako_load_bytecode_locked (Some "main") main_bytecode s1 in
          if Z.ltb ret 0 then Some (ret, s2)
          else Some (ret, spawn_vm_thread s2)
    end.

Definition hako_run (s : loader) : option (Z * loader) :=
  hako_start_vm_thread s.

(** ** [hako_init_extensions]

    [section] is the content of the [.hako_extensions] linker section,
    from [__hako_extensions_start] to [__hako_extensions_end].  The walk
    runs between [irq_lock] and [irq_unlock]. *)

Definition invoke (i : nat) (f : pointer) (s : loader) : loader :=
  Build (g_bytecode_registry s) (g_bytecode_count s) (g_vm_initialized s)
        (g_vm s) (g_vm_thread_started s) (g_core_methods_registered s)
        (call_init f (vm s)) (spawned s) (zlog s) (ext_invoked s ++ [i]).

(** second loop: [ext] is entry number [i] of the section, [exts] the
    entries from [ext] on; [ext->init()] is called without a test. *)
Fixpoint init_loop (exts : list hako_extension_entry) (i : nat) (s : loader)
  : option loader :=
  match exts with
  | [] => Some s
  | ext :: rest =>
      match init ext with
      | None => None
      | Some f =>
          init_loop rest (S i)
            (invoke i f
               (klog LOG_DBG "Initializing extension: %s (priority %d)" s))
      end
  end.

Definition hako_init_extensions (section : list hako_extension_entry)
  (s : loader) : option loader :=
  let s1 := klog LOG_INF "Discovering HAKO extensions..." s in
  let count := count_extensions section 0 in
  let s2 := klog LOG_INF "Found %zu extension(s)" s1 in
  match init_loop section 0 s2 with
  | None => None
  | Some s3 => Some (klog LOG_INF "All extensions initialized" s3)
  end.

(** ** [hako_get_vm] *)

Definition hako_get_vm (s : loader) : pointer := g_vm s.

End WithInterpreter.
End Loader.

(** ** The original, blocking loader

    The first [loader.c]: no mutex, no supervisor thread, one global VM
    opened by [hako_init].  Only the two functions the properties below
    concern are embedded, [hako_init] and [hako_init_extensions].

    The priority loop of [hako_init_extensions] is
    [for (uint8_t prio = 0; prio <= 255; prio++)]; its iterations are
    counted by a [fuel] argument, and a result says whether the function
    returned or the fuel ran out first. *)

Module Original.
Section WithInterpreter.
Context `{Interpreter}.

Record loader := Build {
  g_bytecode_registry : list hako_bytecode_entry;
  g_bytecode_count : nat;
  g_vm_initialized : bool;
  g_vm : pointer;
  vm : mrbc;
  zlog : list log_record;
  ext_invoked : list nat
}.

Definition boot (m : mrbc) : loader :=
  Build (replicate MAX_BYTECODE_MODULES empty_slot) 0 false NULL m [] [].

Definition klog (lvl : log_level) (msg : string) (s : loader) : loader :=
  Build (g_bytecode_registry s) (g_bytecode_count s) (g_vm_initialized s)
        (g_vm s) (vm s) (zlog s ++ [(lvl, msg)]) (ext_invoked s).

Definition with_vm (m : mrbc) (s : loader) : loader :=
  Build (g_bytecode_registry s) (g_bytecode_count s) (g_vm_initialized s)
        (g_vm s) m (zlog s) (ext_invoked s).

Inductive outcome (A : Type) :=
  | Returned (a : A)
  | Looping (s : loader).
Arguments Returned {A} a.
Arguments Looping {A} s.

Definition invoke (i : nat) (f : pointer) (s : loader) : loader :=
  Build (g_bytecode_registry s) (g_bytecode_count s) (g_vm_initialized s)
        (g_vm s) (call_init f (vm s)) (zlog s) (ext_invoked s ++ [i]).

(** inner loop: every entry whose priority is [prio] and whose [init] is
    not null is initialised; [ext] is entry number [i] *)
Fixpoint init_pass (prio : Z) (exts : list hako_extension_entry) (i : nat)
  (s : loader) : loader :=
  match exts with
  | [] => s
  | ext :: rest =>
      if Z.eqb (priority ext) prio then
        match init ext with
        | Some f =>
            init_pass prio rest (S i)
              (invoke i f
                 (klog LOG_DBG "Initializing extension: %s (priority %d)" s))
        | None => init_pass prio rest (S i) s
        end
      else init_pass prio rest (S i) s
  end.

(** outer loop: [prio] is a [uint8_t], so [prio++] wraps at 256 *)
Fixpoint priority_loop (fuel : nat) (section : list hako_extension_entry)
  (prio : Z) (s : loader) : outcome loader :=
  match fuel with
  | O => Looping s
  | S fuel' =>
      if Z.leb prio 255 then
        priority_loop fuel' section ((prio + 1) mod 256)
          (init_pass prio section 0 s)
      else Returned s
  end.

Definition hako_init_extensions (fuel : nat)
  (section : list hako_extension_entry) (s : loader) : outcome loader :=
  let s1 := klog LOG_INF "Discovering HAKO extensions..." s in
  let count := count_extensions section 0 in
  if Nat.eqb count 0 then Returned (klog LOG_INF "No extensions found" s1)
  else
    match priority_loop fuel section 0
            (klog LOG_INF "Found %zu extension(s)" s1) with
    | Looping s2 => Looping s2
    | Returned s2 => Returned (klog LOG_INF "All extensions initialized" s2)
    end.

Definition hako_init (fuel : nat) (section : list hako_extension_entry)
  (s : loader) : outcome (Z * loader) :=
  if g_vm_initialized s then
    Returned (0, klog LOG_WRN "HAKO VM already initialized" s)
  else
    let m := mrbc_init_class (mrbc_init_global (mrbc_init_alloc (vm s))) in
    let '(v, m') := mrbc_vm_open m in
    let s1 := Build (g_bytecode_registry s) (g_bytecode_count s)
                    (g_vm_initialized s) v m' (zlog s) (ext_invoked s) in
    if N.eqb v NULL then
      Returned (- ENOMEM, klog LOG_ERR "Failed to create VM instance" s1)
    else
      let s2 := Build (g_bytecode_registry s1) 0 true (g_vm s1) (vm s1)
                      (zlog s1) (ext_invoked s1) in
      match hako_init_extensions fuel section
              (klog LOG_INF "HAKO VM initialized (memory: %d bytes)" s2) with
      | Looping s3 => Looping s3
      | Returned s3 => Returned (0, s3)
      end.

End WithInterpreter.

Arguments Returned {_ A} a.
Arguments Looping {_ A} s.

End Original.

(** ** The rest of the original loader

    [hako_load_registry], [hako_load_bytecode], [hako_run] and
    [hako_find_bytecode] of the original [loader.c], on the globals of
    [Original].  They call three more entry points of the engine;
    [mrbc_vm_run] returns when the Ruby program completes, and is [None]
    for a program that does not. *)

Class VmRunner `{Interpreter} := {
  (** [mrbc_load_mrb(vm, bytecode)]: 0 on success *)
  mrbc_load_mrb : pointer -> pointer -> mrbc -> Z * mrbc;
  mrbc_vm_begin : pointer -> mrbc -> mrbc;
  mrbc_vm_run : pointer -> mrbc -> option (Z * mrbc);
  mrbc_vm_end : pointer -> mrbc -> mrbc
}.

Module Blocking.
Section WithRunner.
Context `{VmRunner}.

Definition registry_append (nm : string) (bc : pointer) (s : Original.loader)
  : Original.loader :=
  Original.Build
    (<[Original.g_bytecode_count s := BytecodeEntry (Some nm) bc]>
       (Original.g_bytecode_registry s))
    (S (Original.g_bytecode_count s)) (Original.g_vm_initialized s)
    (Original.g_vm s) (Original.vm s) (Original.zlog s)
    (Original.ext_invoked s).

(** The [for] loop of [hako_load_registry]; [registry] is the caller's
    table from [registry[i]] on and [count] is [count - i]. *)
Fixpoint registry_loop (registry : list hako_bytecode_entry) (count : nat)
  (s : Original.loader) {struct count} : option (Loader.flow * Original.loader) :=
  match count with
  | O => Some (Loader.Next, s)
  | S count' =>
      match registry with
      | [] => None
      | e :: rest =>
          match name e with
          | None => Some (Loader.Next, s)
          | Some nm =>
              if N.eqb (bytecode e) NULL then
                registry_loop rest count'
                  (Original.klog LOG_WRN "Skipping module '%s': NULL bytecode" s)
              else if Nat.ltb (Original.g_bytecode_count s) MAX_BYTECODE_MODULES
              then
                registry_loop rest count'
                  (Original.klog LOG_DBG "Registered module: %s"
                     (registry_append nm (bytecode e) s))
              else
                Some (Loader.Return (- ENOMEM),
                      Original.klog LOG_ERR
                        "Bytecode registry full (max %d modules)" s)
          end
      end
  end.

Definition hako_load_registry (registry : option (list hako_bytecode_entry))
  (count : nat) (s : Original.loader) : option (Z * Original.loader) :=
  if negb (Original.g_vm_initialized s) then
    Some (- EINVAL,
          Original.klog LOG_ERR "VM not initialized. Call hako_init() first" s)
  else
    match registry with
    | None => Some (- EINVAL, Original.klog LOG_ERR "Invalid registry pointer" s)
    | Some tbl =>
        match registry_loop tbl count
                (Original.klog LOG_INF "Loading bytecode registry: %zu modules" s)
        with
        | None => None
        | Some (Loader.Return code, s') => Some (code, s')
        | Some (Loader.Next, s') =>
            Some (0, Original.klog LOG_INF
                       "Successfully registered %zu modules" s')
        end
    end.

Definition hako_load_bytecode (nm : option string) (bc : pointer)
  (s : Original.loader) : Z * Original.loader :=
  if negb (Original.g_vm_initialized s) || N.eqb (Original.g_vm s) NULL then
    (- EINVAL, Original.klog LOG_ERR "VM not initialized" s)
  else if N.eqb bc NULL then
    (- EINVAL, Original.klog LOG_ERR "Invalid bytecode pointer" s)
  else
    let '(rc, m) := mrbc_load_mrb (Original.g_vm s) bc (Original.vm s) in
    if negb (Z.eqb rc 0) then
      (- EIO, Original.klog LOG_ERR "Failed to load bytecode: %s"
                (Original.with_vm m s))
    else
      (0, Original.klog LOG_INF "Loaded bytecode: %s" (Original.with_vm m s)).

(** [Looping] when [mrbc_vm_run] does not return. *)
Definition hako_run (s : Original.loader)
  : Original.outcome (Z * Original.loader) :=
  if negb (Original.g_vm_initialized s) || N.eqb (Original.g_vm s) NULL then
    Original.Returned (- EINVAL, Original.klog LOG_ERR "VM not initialized" s)
  else
    let s1 := Original.klog LOG_INF "Starting Ruby VM..." s in
    let m1 := mrbc_vm_begin (Original.g_vm s1) (Original.vm s1) in
    match mrbc_vm_run (Original.g_vm s1) m1 with
    | None => Original.Looping (Original.with_vm m1 s1)
    | Some (_, m2) =>
        let m3 := mrbc_vm_end (Original.g_vm s1) m2 in
        Original.Returned
          (0, Original.klog LOG_INF "Ruby VM finished" (Original.with_vm m3 s1))
    end.

Definition hako_find_bytecode (nm : option string) (s : Original.loader)
  : option (pointer * Original.loader) :=
  match nm with
  | None => Some (NULL, s)
  | Some n =>
      match Loader.find_loop (Original.g_bytecode_registry s)
              (Original.g_bytecode_count s) n with
      | None => None
      | Some (Loader.Found bc) =>
          Some (bc, Original.klog LOG_DBG "Found bytecode: %s" s)
      | Some Loader.NotFound =>
          Some (NULL, Original.klog LOG_DBG "Bytecode not found: %s" s)
      end
  end.

End WithRunner.
End Blocking.

(** ** A test double for the engine

    Creating a task fails [failures] times, then succeeds until
    [task_limit] tasks exist; the double records the tasks created, the
    methods defined and the callbacks called. *)

Module Double.

Record engine := Engine {
  tasks : list (pointer * option string);
  task_limit : nat;
  failures : nat;
  defined : list string;
  called : list pointer
}.

Definition create_task (bc : pointer) (m : engine) : pointer * engine :=
  match failures m with
  | S k => (NULL, Engine (tasks m) (task_limit m) k (defined m) (called m))
  | O =>
      if Nat.ltb (length (tasks m)) (task_limit m) then
        (N.succ (N.of_nat (length (tasks m))),
         Engine (tasks m ++ [(bc, None)]) (task_limit m) 0 (defined m)
                (called m))
      else (NULL, m)
  end.

Definition set_task_name (tcb : pointer) (nm : string) (m : engine) : engine :=
  Engine (alter (fun t => (t.1, Some nm)) (N.to_nat (N.pred tcb)) (tasks m))
         (task_limit m) (failures m) (defined m) (called m).

Definition define_method (cls : mrbc_class) (nm : string) (f : pointer)
  (m : engine) : engine :=
  Engine (tasks m) (task_limit m) (failures m) (defined m ++ [nm]) (called m).

Definition call (f : pointer) (m : engine) : engine :=
  Engine (tasks m) (task_limit m) (failures m) (defined m) (called m ++ [f]).

Definition reset (m : engine) : engine :=
  Engine [] (task_limit m) (failures m) [] (called m).

Definition interpreter : Interpreter := {|
  mrbc := engine;
  mrbc_init := reset;
  mrbc_create_task := create_task;
  mrbc_set_task_name := set_task_name;
  mrbc_str_to_symid := fun nm m => (Z.of_nat (String.length nm), m);
  mrbc_find_method := fun _ _ _ => Some 1%N;
  mrbc_define_method := define_method;
  mrbc_init_alloc := reset;
  mrbc_init_global := fun m => m;
  mrbc_init_class := fun m => m;
  mrbc_vm_open := fun m => (1%N, m);
  call_init := call
|}.

(** The double runs a program to its end; loading any bytecode but the
    one at address 13 succeeds, and a loaded bytecode becomes a task. *)
Definition load_mrb (v bc : pointer) (m : engine) : Z * engine :=
  if N.eqb bc 13 then (-1, m)
  else (0, Engine (tasks m ++ [(bc, None)]) (task_limit m) (failures m)
                  (defined m) (called m)).

Definition runner : @VmRunner interpreter :=
  @Build_VmRunner interpreter load_mrb (fun _ m => m)
    (fun _ m => Some (0, m)) (fun _ m => m).

(** the same engine when no VM can be opened *)
Definition starved : Interpreter := {|
  mrbc := engine;
  mrbc_init := reset;
  mrbc_create_task := create_task;
  mrbc_set_task_name := set_task_name;
  mrbc_str_to_symid := fun nm m => (Z.of_nat (String.length nm), m);
  mrbc_find_method := fun _ _ _ => Some 1%N;
  mrbc_define_method := define_method;
  mrbc_init_alloc := reset;
  mrbc_init_global := fun m => m;
  mrbc_init_class := fun m => m;
  mrbc_vm_open := fun m => (NULL, m);
  call_init := call
|}.

Definition starved_runner : @VmRunner starved :=
  @Build_VmRunner starved load_mrb (fun _ m => m)
    (fun _ m => Some (0, m)) (fun _ m => m).

(** an engine with room for [n] tasks *)
Definition fresh (n : nat) : engine := Engine [] n 0 [] [].

(** ... whose first [k] task creations fail *)
Definition flaky (n k : nat) : engine := Engine [] n k [] [].

End Double.

(** ** Test data *)

Module Example.

#[local] Existing Instance Double.interpreter.

(** the extension of the repository, [HAKO_EXTENSION_DEFINE(zephyr_gpio,
    zephyr_gpio_init, HAKO_EXTENSION_PRIORITY_DEFAULT)] *)
Definition zephyr_gpio : hako_extension_entry :=
  ExtensionEntry "zephyr_gpio" (Some 1%N) HAKO_EXTENSION_PRIORITY_DEFAULT.

(** four extensions, of priorities 50, 10, 90, 10 in section order *)
Definition four_priorities : list hako_extension_entry :=
  [ ExtensionEntry "a" (Some 1%N) 50; ExtensionEntry "b" (Some 2%N) 10;
    ExtensionEntry "c" (Some 3%N) 90; ExtensionEntry "d" (Some 4%N) 10 ].

(** [n] entries with pairwise distinct one-character names *)
Definition batch (n : nat) : list hako_bytecode_entry :=
  (fun i => BytecodeEntry (Some (String (Ascii.ascii_of_nat (48 + i)) ""))
                          (N.of_nat (100 + i))) <$> seq 0 n.

(** a generated registry table with its [{NULL, NULL}] terminator *)
Definition main_and_utils : list hako_bytecode_entry :=
  [ BytecodeEntry (Some "main") 11%N; BytecodeEntry (Some "utils") 12%N;
    empty_slot ].

(** the threaded loader at boot, over an engine with room for [n] tasks *)
Definition booted (n : nat) : Loader.loader :=
  Loader.boot (Double.fresh n).

(** ... after [hako_init] *)
Definition initialised (n : nat) : Loader.loader :=
  (Loader.hako_init (booted n)).2.

(** the state an operation leaves, the state itself when the operation has
    no defined result *)
Definition after {A : Type} (op : Loader.loader -> option (A * Loader.loader))
  (s : Loader.loader) : Loader.loader :=
  match op s with
  | Some (_, s') => s'
  | None => s
  end.

(** ... after [hako_load_registry(main_and_utils, 2)] *)
Definition loaded (n : nat) : Loader.loader :=
  after (Loader.hako_load_registry (Some main_and_utils) 2) (initialised n).

(** ... after [hako_run] *)
Definition running (n : nat) : Loader.loader :=
  after Loader.hako_run (loaded n).

(** "main" and "utils" registered over an engine whose first task
    creation fails, and that engine after the failure *)
Definition flaky_loaded : Loader.loader :=
  after (Loader.hako_load_registry (Some main_and_utils) 2)
        (Loader.hako_init (Loader.boot (Double.flaky 4 1))).2.

Definition recovered : Double.engine :=
  (Double.create_task 11%N (Loader.vm flaky_loaded)).2.

(** ... after a batch of 33 entries on the initialised runtime *)
Definition full (n : nat) : Loader.loader :=
  after (Loader.hako_load_registry (Some (batch 33)) 33) (initialised n).

(** a table whose second entry has no bytecode *)
Definition sparse : list hako_bytecode_entry :=
  [ BytecodeEntry (Some "a") 21%N; BytecodeEntry (Some "b") NULL;
    BytecodeEntry (Some "c") 23%N ].

(** the running loader after one more batch *)
Definition running_more : Loader.loader :=
  after (Loader.hako_load_registry (Some (batch 3)) 3) (running 4).

(** the original loader at boot, and after a [hako_init] with an empty
    extension section *)
Definition original_booted : Original.loader :=
  Original.boot (Double.fresh 4).

Definition original_initialised : Original.loader :=
  match Original.hako_init 1 [] original_booted with
  | Original.Returned (_, s) => s
  | Original.Looping s => s
  end.

(** the original loader at boot over the engine that opens no VM *)
Definition original_starved : @Original.loader Double.starved :=
  @Original.boot Double.starved (Double.fresh 4).

End Example.

(** ** Vocabulary of the properties *)

(** An entry a batch may register: a name and a bytecode reference. *)
Definition valid_entry (e : hako_bytecode_entry) : Prop :=
  is_Some (name e) /\ bytecode e <> NULL.

#[global] Instance valid_entry_dec e : Decision (valid_entry e).
Proof. unfold valid_entry. apply _. Defined.

Section Vocabulary.
Context `{Interpreter}.

(** The registered entries: the first [g_bytecode_count] slots. *)
Definition active (s : Loader.loader) : list hako_bytecode_entry :=
  take (Loader.g_bytecode_count s) (Loader.g_bytecode_registry s).

(** Well-formed registry: the table has its 32 slots, the count is within
    them and every registered slot holds a valid entry. *)
Definition wf (s : Loader.loader) : Prop :=
  length (Loader.g_bytecode_registry s) = MAX_BYTECODE_MODULES /\
  (Loader.g_bytecode_count s <= MAX_BYTECODE_MODULES)%nat /\
  Forall valid_entry (active s).

(** The entries a batch offers for registration: those among the first
    [count] that come before the first null name and have a bytecode. *)
Fixpoint offered (tbl : list hako_bytecode_entry) (count : nat)
  {struct count} : list hako_bytecode_entry :=
  match count, tbl with
  | S count', e :: rest =>
      match name e with
      | None => []
      | Some _ =>
          if N.eqb (bytecode e) NULL then offered rest count'
          else e :: offered rest count'
      end
  | _, _ => []
  end.

(** Bytecode of the first entry of [l] named [nm], [NULL] when none is. *)
Fixpoint first_match (l : list hako_bytecode_entry) (nm : string) : pointer :=
  match l with
  | [] => NULL
  | e :: rest =>
      if bool_decide (name e = Some nm) then bytecode e
      else first_match rest nm
  end.

(** What [hako_find_bytecode] returns, without the state. *)
Definition find (nm : option string) (s : Loader.loader) : option pointer :=
  fst <$> Loader.hako_find_bytecode nm s.

(** The fields a registration leaves alone. *)
Definition same_runtime (s s' : Loader.loader) : Prop :=
  Loader.g_vm_initialized s' = Loader.g_vm_initialized s /\
  Loader.g_vm s' = Loader.g_vm s /\
  Loader.g_vm_thread_started s' = Loader.g_vm_thread_started s /\
  Loader.g_core_methods_registered s' = Loader.g_core_methods_registered s /\
  Loader.vm s' = Loader.vm s /\
  Loader.spawned s' = Loader.spawned s /\
  Loader.ext_invoked s' = Loader.ext_invoked s.

(** The fields an operation outside the registry leaves alone. *)
Definition same_registry (s s' : Loader.loader) : Prop :=
  Loader.g_bytecode_registry s' = Loader.g_bytecode_registry s /\
  Loader.g_bytecode_count s' = Loader.g_bytecode_count s /\
  Loader.g_vm_initialized s' = Loader.g_vm_initialized s.

(** The priorities of the entries of [section] whose indices are listed,
    in the order listed. *)
Definition priorities_of (section : list hako_extension_entry)
  (indices : list nat) : list Z :=
  omap (fun i => priority <$> section !! i) indices.

(** The public operations of loader.h and the state each one leaves. *)
Inductive operation :=
  | Init
  | LoadRegistry (registry : option (list hako_bytecode_entry)) (count : nat)
  | LoadBytecode (nm : option string) (bc : pointer)
  | Run
  | FindBytecode (nm : option string).

Definition step (o : operation) (s : Loader.loader) : option Loader.loader :=
  match o with
  | Init => Some (Loader.hako_init s).2
  | LoadRegistry registry count => snd <$> Loader.hako_load_registry registry count s
  | LoadBytecode nm bc => Some (Loader.hako_load_bytecode nm bc s).2
  | Run => snd <$> Loader.hako_run s
  | FindBytecode nm => snd <$> Loader.hako_find_bytecode nm s
  end.

(** [steps s s']: [s'] is reached from [s] by public operations. *)
Inductive steps (s : Loader.loader) : Loader.loader -> Prop :=
  | steps_refl : steps s s
  | steps_step o s1 s2 : steps s s1 -> step o s1 = Some s2 -> steps s s2.

Definition reachable (s : Loader.loader) : Prop :=
  exists m, steps (Loader.boot m) s.

End Vocabulary.

(** ** Vocabulary of the further properties *)

Section MoreVocabulary.
Context `{Interpreter}.

(** The thread count matches [g_vm_thread_started], and the flag is only
    set on an initialised runtime. *)
Definition thread_accounting (s : Loader.loader) : Prop :=
  Loader.spawned s = (if Loader.g_vm_thread_started s then 1 else 0)%nat /\
  (Loader.g_vm_thread_started s = true -> Loader.g_vm_initialized s = true).

(** The original and the threaded loader hold the same registry. *)
Definition registry_agrees (o : Original.loader) (t : Loader.loader) : Prop :=
  Original.g_bytecode_registry o = Loader.g_bytecode_registry t /\
  Original.g_bytecode_count o = Loader.g_bytecode_count t /\
  Original.g_vm_initialized o = Loader.g_vm_initialized t.

End MoreVocabulary.

(** ** Properties *)

(** Closes a goal about concrete data by evaluation. *)
Ltac evaluate :=
  first [ vm_compute; reflexivity
        | vm_compute; lia
        | apply (bool_decide_unpack _); vm_compute; exact I ].


Local Open Scope nat_scope.
Local Open Scope list_scope.

Section Properties.
Context `{Interpreter}.

(** *** Logging touches nothing but the log *)

Lemma active_klog lvl msg s : active (Loader.klog lvl msg s) = active s.
Proof. reflexivity. Qed.

Lemma wf_klog lvl msg s : wf s -> wf (Loader.klog lvl msg s).
Proof. intros Hwf. exact Hwf. Qed.

Lemma same_runtime_refl s : same_runtime s s.
Proof. repeat split. Qed.

Lemma same_runtime_trans s1 s2 s3 :
  same_runtime s1 s2 -> same_runtime s2 s3 -> same_runtime s1 s3.
Proof.
  unfold same_runtime.
  intros (a1 & a2 & a3 & a4 & a5 & a6 & a7) (b1 & b2 & b3 & b4 & b5 & b6 & b7).
  repeat split; congruence.
Qed.

(** *** The lookup loop *)

Lemma first_match_valid l nm :
  Forall valid_entry l -> first_match l nm = NULL ->
  forall e, e ∈ l -> name e <> Some nm.
Proof.
  induction 1 as [|e l [_ Hbc] _ IH]; simpl; intros Hnone e' Hin.
  - by apply not_elem_of_nil in Hin.
  - case_bool_decide as Hname; [congruence|].
    apply elem_of_cons in Hin as [->|Hin]; [done|]. by apply IH.
Qed.

Lemma first_match_elem l nm :
  first_match l nm <> NULL ->
  exists e, e ∈ l /\ name e = Some nm /\ bytecode e = first_match l nm.
Proof.
  induction l as [|e l IH]; simpl; [done|].
  case_bool_decide as Hname; intros Hfound.
  - exists e. split; [apply elem_of_cons; by left | done].
  - destruct (IH Hfound) as (e' & Hin & Hn & Hb).
    exists e'. split; [apply elem_of_cons; by right | done].
Qed.

Lemma first_match_app l1 l2 nm :
  Forall valid_entry l1 ->
  first_match (l1 ++ l2) nm =
  if N.eqb (first_match l1 nm) NULL then first_match l2 nm
  else first_match l1 nm.
Proof.
  induction 1 as [|e l1 [_ Hbc] _ IH]; simpl; [done|].
  case_bool_decide as Hname; [|done].
  by destruct (N.eqb_spec (bytecode e) NULL).
Qed.

Lemma find_loop_spec slots n nm :
  Forall valid_entry (take n slots) -> n <= length slots ->
  Loader.find_loop slots n nm =
  Some (if N.eqb (first_match (take n slots) nm) NULL then Loader.NotFound
        else Loader.Found (first_match (take n slots) nm)).
Proof.
  revert slots. induction n as [|n IH]; intros slots Hall Hlen; simpl.
  - done.
  - destruct slots as [|e slots]; simpl in *; [lia|].
    inversion Hall as [|? ? [[slot_name Hname] Hbc] Hall']; subst.
    rewrite Hname.
    destruct (String.eqb_spec slot_name nm) as [->|Hne].
    + rewrite bool_decide_eq_true_2 by done.
      by destruct (N.eqb_spec (bytecode e) NULL).
    + rewrite bool_decide_eq_false_2 by congruence.
      apply IH; [done | lia].
Qed.

Lemma find_spec nm s :
  wf s -> find (Some nm) s = Some (first_match (active s) nm).
Proof.
  intros (Hlen & Hcnt & Hall).
  unfold find, Loader.hako_find_bytecode, Loader.hako_find_bytecode_locked.
  rewrite find_loop_spec; [| exact Hall | lia].
  fold (active s).
  by destruct (N.eqb_spec (first_match (active s) nm) NULL) as [->|].
Qed.

(** *** The registration loop *)

Lemma offered_valid tbl count : Forall valid_entry (offered tbl count).
Proof.
  revert tbl. induction count as [|count IH]; intros [|e tbl]; simpl;
    try constructor.
  destruct (name e) as [nm|] eqn:Hname; [|constructor].
  destruct (N.eqb_spec (bytecode e) NULL) as [Hnull|Hnn]; [apply IH|].
  constructor; [|apply IH]. split; [by rewrite Hname | done].
Qed.

Lemma offered_all_valid entries rest :
  Forall valid_entry entries ->
  offered (entries ++ rest) (length entries) = entries.
Proof.
  induction 1 as [|e entries [[nm Hname] Hbc] _ IH]; simpl; [done|].
  rewrite Hname. destruct (N.eqb_spec (bytecode e) NULL); [done|].
  by rewrite IH.
Qed.

Lemma wf_registry_append nm bc s :
  wf s -> Loader.g_bytecode_count s < MAX_BYTECODE_MODULES -> bc <> NULL ->
  wf (Loader.registry_append nm bc s) /\
  active (Loader.registry_append nm bc s) =
  active s ++ [BytecodeEntry (Some nm) bc].
Proof.
  intros (Hlen & Hcnt & Hall) Hroom Hbc.
  assert (Hact : active (Loader.registry_append nm bc s) =
                 active s ++ [BytecodeEntry (Some nm) bc]).
  { unfold active; simpl.
    erewrite take_S_r; [|apply list_lookup_insert_eq; lia].
    by rewrite take_insert_ge by lia. }
  split; [|done].
  split; [|split].
  - simpl. by rewrite length_insert.
  - simpl. lia.
  - rewrite Hact. apply Forall_app. split; [done|].
    constructor; [|constructor]. split; [by eexists | done].
Qed.

Lemma registry_loop_spec tbl count s fl s' :
  wf s -> Loader.registry_loop tbl count s = Some (fl, s') ->
  wf s' /\ same_runtime s s' /\
  active s' =
    active s ++ take (MAX_BYTECODE_MODULES - Loader.g_bytecode_count s)
                     (offered tbl count) /\
  fl = (if decide (length (offered tbl count)
                   <= MAX_BYTECODE_MODULES - Loader.g_bytecode_count s)
        then Loader.Next else Loader.Return (- ENOMEM)%Z).
Proof.
  revert tbl s. induction count as [|count IH]; intros tbl s Hwf Hrun.
  - simpl in *. injection Hrun as <- <-.
    rewrite take_nil, app_nil_r.
    repeat split; try apply Hwf; try by rewrite decide_True by (simpl; lia).
  - destruct tbl as [|e tbl]; simpl in Hrun; [done|]. simpl offered.
    destruct (name e) as [nm|] eqn:Hname.
    2:{ injection Hrun as <- <-. rewrite take_nil, app_nil_r.
        repeat split; try apply Hwf; try by rewrite decide_True by (simpl; lia). }
    destruct (N.eqb_spec (bytecode e) NULL) as [Hnull|Hnn].
    { apply IH in Hrun; [|by apply wf_klog]. exact Hrun. }
    destruct (Nat.ltb_spec (Loader.g_bytecode_count s) MAX_BYTECODE_MODULES)
      as [Hroom|Hfull].
    + destruct (wf_registry_append nm (bytecode e) s Hwf Hroom Hnn)
        as [Hwf1 Hact1].
      apply IH in Hrun; [|by apply wf_klog].
      destruct Hrun as (Hwf' & Hsame & Hact & Hfl).
      rewrite active_klog, Hact1 in Hact.
      cbn [Loader.g_bytecode_count Loader.klog Loader.registry_append]
        in Hact, Hfl.
      split; [done|]. split; [exact Hsame|].
      assert (He : e = BytecodeEntry (Some nm) (bytecode e))
        by (destruct e; simpl in *; congruence).
      replace (MAX_BYTECODE_MODULES - Loader.g_bytecode_count s)
        with (S (MAX_BYTECODE_MODULES - S (Loader.g_bytecode_count s))) by lia.
      split.
      * rewrite Hact, <- app_assoc. simpl. by rewrite <- He.
      * rewrite Hfl. simpl length.
        repeat case_decide; (done || lia).
    + injection Hrun as <- <-.
      destruct Hwf as (Hlen & Hcnt & Hall).
      replace (MAX_BYTECODE_MODULES - Loader.g_bytecode_count s) with 0 by lia.
      rewrite take_0, app_nil_r.
      repeat split; done.
Qed.

Lemma registry_loop_total tbl count s :
  count <= length tbl -> is_Some (Loader.registry_loop tbl count s).
Proof.
  revert tbl s. induction count as [|count IH]; intros tbl s Hlen; simpl.
  - by eexists.
  - destruct tbl as [|e tbl]; simpl in Hlen; [lia|].
    destruct (name e); [|by eexists].
    destruct (N.eqb (bytecode e) NULL); [apply IH; lia|].
    destruct (Loader.g_bytecode_count s <? MAX_BYTECODE_MODULES);
      [apply IH; lia | by eexists].
Qed.

Lemma length_active s : wf s -> length (active s) = Loader.g_bytecode_count s.
Proof.
  intros (Hlen & Hcnt & _). unfold active. rewrite length_take. lia.
Qed.

Lemma load_registry_spec tbl count s r s' :
  wf s -> Loader.g_vm_initialized s = true ->
  Loader.hako_load_registry (Some tbl) count s = Some (r, s') ->
  wf s' /\ same_runtime s s' /\
  active s' =
    active s ++ take (MAX_BYTECODE_MODULES - Loader.g_bytecode_count s)
                     (offered tbl count) /\
  r = (if decide (length (offered tbl count)
                  <= MAX_BYTECODE_MODULES - Loader.g_bytecode_count s)
       then 0%Z else (- ENOMEM)%Z).
Proof.
  intros Hwf Hinit. unfold Loader.hako_load_registry. rewrite Hinit. simpl.
  destruct (Loader.registry_loop tbl count _) as [[fl s1]|] eqn:Hloop; [|done].
  apply registry_loop_spec in Hloop; [|by apply wf_klog].
  destruct Hloop as (Hwf1 & Hsame & Hact & Hfl).
  rewrite active_klog in Hact.
  cbn [Loader.g_bytecode_count Loader.klog] in Hact, Hfl.
  destruct fl as [|code]; intros [= <- <-].
  - repeat split; try apply Hwf1; try apply Hsame; [done|].
    by case_decide.
  - repeat split; try apply Hwf1; try apply Hsame; [done|].
    case_decide; [done | congruence].
Qed.

Lemma load_registry_total tbl count s :
  count <= length tbl ->
  is_Some (Loader.hako_load_registry (Some tbl) count s).
Proof.
  intros Hlen. unfold Loader.hako_load_registry.
  destruct (negb (Loader.g_vm_initialized s)); [by eexists|].
  destruct (registry_loop_total tbl count
              (Loader.klog LOG_INF "Loading bytecode registry: %zu modules" s)
              Hlen) as [[[|code] s1] ->]; by eexists.
Qed.

(** *** Operations that leave the registry alone *)

Lemma same_registry_wf s s' : same_registry s s' -> wf s -> wf s'.
Proof.
  intros (Hreg & Hcnt & _). unfold wf, active. by rewrite Hreg, Hcnt.
Qed.

Lemma same_registry_active s s' : same_registry s s' -> active s' = active s.
Proof. intros (Hreg & Hcnt & _). unfold active. by rewrite Hreg, Hcnt. Qed.

Lemma register_methods_frame tbl s :
  let s' := Loader.register_methods tbl s in
  same_registry s s' /\
  Loader.g_vm s' = Loader.g_vm s /\
  Loader.g_vm_thread_started s' = Loader.g_vm_thread_started s /\
  Loader.spawned s' = Loader.spawned s /\
  Loader.ext_invoked s' = Loader.ext_invoked s.
Proof.
  revert s. induction tbl as [|[cls nm] tbl IH]; intros s; simpl.
  - by repeat split.
  - destruct (mrbc_str_to_symid nm (Loader.vm s)) as [sym m1].
    destruct (mrbc_find_method cls sym m1) as [func|];
      [destruct (N.eqb func NULL)|];
      match goal with |- context [Loader.register_methods tbl ?t] =>
        specialize (IH t) end;
      simpl in IH; exact IH.
Qed.

Lemma load_bytecode_locked_frame nm bc s :
  let s' := (Loader.hako_load_bytecode_locked nm bc s).2 in
  same_registry s s' /\
  Loader.g_vm_thread_started s' = Loader.g_vm_thread_started s /\
  Loader.spawned s' = Loader.spawned s /\
  Loader.ext_invoked s' = Loader.ext_invoked s.
Proof.
  unfold Loader.hako_load_bytecode_locked.
  destruct (mrbc_create_task bc (Loader.vm s)) as [tcb m1].
  destruct (N.eqb tcb NULL); simpl; [by repeat split|].
  destruct (N.eqb (Loader.g_vm s) NULL); by repeat split.
Qed.

Lemma load_bytecode_frame nm bc s :
  same_registry s (Loader.hako_load_bytecode nm bc s).2.
Proof.
  unfold Loader.hako_load_bytecode.
  destruct (negb (Loader.g_vm_initialized s)); [by repeat split|].
  destruct (N.eqb bc NULL); [by repeat split|].
  apply load_bytecode_locked_frame.
Qed.

Lemma find_bytecode_frame nm s b s' :
  Loader.hako_find_bytecode nm s = Some (b, s') ->
  same_registry s s' /\ same_runtime s s'.
Proof.
  unfold Loader.hako_find_bytecode, Loader.hako_find_bytecode_locked.
  destruct nm as [n|]; [|intros [= <- <-]; by repeat split].
  destruct (Loader.find_loop _ _ n) as [[bc|]|]; intros [= <- <-];
    by repeat split.
Qed.

Lemma run_frame s r s' :
  Loader.hako_run s = Some (r, s') -> same_registry s s'.
Proof.
  unfold Loader.hako_run, Loader.hako_start_vm_thread.
  destruct (negb (Loader.g_vm_initialized s)); [intros [= <- <-]; by repeat split|].
  destruct (Loader.g_vm_thread_started s); [intros [= <- <-]; by repeat split|].
  destruct (Loader.hako_find_bytecode_locked (Some "main"%string) s)
    as [[b s1]|] eqn:Hfind; [|done].
  apply (find_bytecode_frame (Some "main"%string)) in Hfind as [Hreg _].
  destruct (N.eqb b NULL).
  - intros [= <- <-]. destruct Hreg as (? & ? & ?). by repeat split.
  - pose proof (load_bytecode_locked_frame (Some "main"%string) b s1) as Hload.
    destruct (Loader.hako_load_bytecode_locked _ b s1) as [ret s2].
    simpl in Hload. destruct Hload as ((? & ? & ?) & _).
    destruct Hreg as (? & ? & ?).
    destruct (Z.ltb ret 0); intros [= <- <-]; repeat split; simpl; congruence.
Qed.

(** *** [hako_init] *)

Lemma hako_init_again s :
  Loader.g_vm_initialized s = true ->
  Loader.hako_init s = (0%Z, Loader.klog LOG_WRN "HAKO VM already initialized" s).
Proof. intros Hinit. unfold Loader.hako_init. by rewrite Hinit. Qed.

Lemma hako_init_first s :
  Loader.g_vm_initialized s = false ->
  let s' := (Loader.hako_init s).2 in
  (Loader.hako_init s).1 = 0%Z /\
  Loader.g_vm_initialized s' = true /\
  Loader.g_bytecode_count s' = 0 /\
  Loader.g_bytecode_registry s' = Loader.g_bytecode_registry s /\
  Loader.g_vm_thread_started s' = false /\
  Loader.spawned s' = Loader.spawned s /\
  Loader.ext_invoked s' = Loader.ext_invoked s.
Proof.
  intros Hinit. unfold Loader.hako_init, Loader.hako_register_core_methods.
  rewrite Hinit.
  destruct (Loader.g_core_methods_registered _); [by repeat split|].
  pose proof (register_methods_frame Loader.method_table
                (Loader.with_vm (mrbc_init (Loader.vm s)) s)) as Hframe.
  cbv zeta in Hframe.
  set (s1 := Loader.register_methods Loader.method_table _) in *.
  clearbody s1.
  destruct Hframe as ((Hreg & _) & _ & _ & Hsp & Hext).
  by repeat split.
Qed.

Lemma hako_init_fresh s :
  length (Loader.g_bytecode_registry s) = MAX_BYTECODE_MODULES ->
  Loader.g_vm_initialized s = false ->
  let s' := (Loader.hako_init s).2 in
  wf s' /\ Loader.g_vm_initialized s' = true /\ Loader.g_bytecode_count s' = 0.
Proof.
  intros Hlen Hinit.
  destruct (hako_init_first s Hinit) as (_ & Hi & Hc & Hr & _).
  simpl. split; [|done].
  unfold wf, active. rewrite Hc, Hr. split; [done|]. split; [lia|].
  constructor.
Qed.

(** *** Steps *)

Lemma wf_boot m : wf (Loader.boot m).
Proof.
  split; [|split].
  - apply length_replicate.
  - simpl. lia.
  - constructor.
Qed.

Lemma step_wf o s s' : wf s -> step o s = Some s' -> wf s'.
Proof.
  intros Hwf. destruct o as [|registry count|nm bc| |nm]; simpl.
  - intros [= <-].
    destruct (Loader.g_vm_initialized s) eqn:Hinit.
    + by rewrite hako_init_again.
    + apply hako_init_fresh; [apply Hwf | done].
  - destruct (Loader.hako_load_registry registry count s) as [[r s1]|] eqn:Hload;
      intros [= <-].
    unfold Loader.hako_load_registry in Hload.
    destruct (Loader.g_vm_initialized s) eqn:Hinit; simpl in Hload;
      [|injection Hload as <- <-; by apply wf_klog].
    destruct registry as [tbl|]; [|injection Hload as <- <-; by apply wf_klog].
    eapply load_registry_spec; [exact Hwf | exact Hinit |].
    unfold Loader.hako_load_registry. rewrite Hinit. exact Hload.
  - intros [= <-]. eapply same_registry_wf; [apply load_bytecode_frame | done].
  - destruct (Loader.hako_run s) as [[r s1]|] eqn:Hrun; intros [= <-].
    eapply same_registry_wf; [by eapply run_frame | done].
  - destruct (Loader.hako_find_bytecode nm s) as [[b s1]|] eqn:Hfind;
      intros [= <-].
    eapply same_registry_wf; [by eapply find_bytecode_frame | done].
Qed.

Lemma steps_wf s s' : wf s -> steps s s' -> wf s'.
Proof. induction 2; [done | by eapply step_wf]. Qed.

Lemma reachable_wf s : reachable s -> wf s.
Proof. intros [m Hsteps]. eapply steps_wf; [apply wf_boot | done]. Qed.

Lemma step_prefix o s s' :
  wf s -> Loader.g_vm_initialized s = true -> step o s = Some s' ->
  Loader.g_vm_initialized s' = true /\ active s `prefix_of` active s'.
Proof.
  intros Hwf Hinit. destruct o as [|registry count|nm bc| |nm]; simpl.
  - rewrite hako_init_again by done. by intros [= <-].
  - destruct (Loader.hako_load_registry registry count s) as [[r s1]|] eqn:Hload;
      intros [= <-].
    destruct registry as [tbl|].
    + apply load_registry_spec in Hload as (_ & Hsame & Hact & _); [|done..].
      split; [destruct Hsame as (-> & _); done|].
      rewrite Hact. by apply prefix_app_r.
    + unfold Loader.hako_load_registry in Hload. rewrite Hinit in Hload.
      by injection Hload as <- <-.
  - intros [= <-].
    pose proof (load_bytecode_frame nm bc s) as Hframe.
    rewrite (same_registry_active _ _ Hframe).
    destruct Hframe as (_ & _ & ->). done.
  - destruct (Loader.hako_run s) as [[r s1]|] eqn:Hrun; intros [= <-].
    apply run_frame in Hrun as Hframe.
    rewrite (same_registry_active _ _ Hframe).
    destruct Hframe as (_ & _ & ->). done.
  - destruct (Loader.hako_find_bytecode nm s) as [[b s1]|] eqn:Hfind;
      intros [= <-].
    apply find_bytecode_frame in Hfind as [Hframe _].
    rewrite (same_registry_active _ _ Hframe).
    destruct Hframe as (_ & _ & ->). done.
Qed.

Lemma steps_prefix s s' :
  wf s -> Loader.g_vm_initialized s = true -> steps s s' ->
  wf s' /\ Loader.g_vm_initialized s' = true /\
  active s `prefix_of` active s'.
Proof.
  intros Hwf Hinit. induction 1 as [|o s1 s2 _ IH Hstep]; [done|].
  destruct IH as (Hwf1 & Hinit1 & Hpre).
  destruct (step_prefix o s1 s2 Hwf1 Hinit1 Hstep) as [Hinit2 Hpre2].
  split; [by eapply step_wf|]. split; [done|]. by etrans.
Qed.

Lemma first_match_prefix l l' nm :
  Forall valid_entry l -> l `prefix_of` l' -> first_match l nm <> NULL ->
  first_match l' nm = first_match l nm.
Proof.
  intros Hall [k ->] Hfound. rewrite first_match_app by done.
  by destruct (N.eqb_spec (first_match l nm) NULL).
Qed.

(** *** Lookups in a table of valid entries *)

Lemma first_match_found l e nm :
  Forall valid_entry l -> e ∈ l -> name e = Some nm ->
  first_match l nm <> NULL.
Proof.
  induction 1 as [|a l [_ Hbc] _ IH]; intros Hin Hname; simpl.
  - by apply not_elem_of_nil in Hin.
  - case_bool_decide as Ha; [done|].
    apply elem_of_cons in Hin as [->|Hin]; [done | by apply IH].
Qed.

Lemma first_match_nodup l e nm :
  NoDup (name <$> l) -> e ∈ l -> name e = Some nm ->
  first_match l nm = bytecode e.
Proof.
  induction l as [|a l IH]; simpl; intros Hnd Hin Hname.
  - by apply not_elem_of_nil in Hin.
  - apply NoDup_cons in Hnd as [Hfresh Hnd].
    apply elem_of_cons in Hin as [->|Hin].
    + by rewrite bool_decide_eq_true_2.
    + rewrite bool_decide_eq_false_2; [by apply IH|].
      intros Ha. apply Hfresh. rewrite Ha, <- Hname.
      by apply list_elem_of_fmap_2.
Qed.

Lemma first_match_absent l nm :
  Some nm ∉ name <$> l -> first_match l nm = NULL.
Proof.
  induction l as [|a l IH]; simpl; [done|]. intros Hnot.
  apply not_elem_of_cons in Hnot as [Hne Hnot].
  rewrite bool_decide_eq_false_2 by congruence. by apply IH.
Qed.

(** Registering valid entries into an initialised, empty registry. *)
Lemma load_into_empty s entries rest :
  wf s -> Loader.g_vm_initialized s = true -> Loader.g_bytecode_count s = 0 ->
  Forall valid_entry entries ->
  exists s',
    Loader.hako_load_registry (Some (entries ++ rest)) (length entries) s =
      Some ((if decide (length entries <= MAX_BYTECODE_MODULES)
             then 0%Z else (- ENOMEM)%Z), s') /\
    wf s' /\ active s' = take MAX_BYTECODE_MODULES entries.
Proof.
  intros Hwf Hinit Hcount Hvalid.
  destruct (load_registry_total (entries ++ rest) (length entries) s)
    as [[r s'] Hload]; [rewrite length_app; lia|].
  pose proof Hload as Hspec.
  apply load_registry_spec in Hspec as (Hwf' & _ & Hact & Hr); [|done..].
  rewrite offered_all_valid in Hact, Hr by done.
  rewrite Hcount, Nat.sub_0_r in Hact, Hr.
  assert (Hnil : active s = []) by (unfold active; by rewrite Hcount).
  rewrite Hnil in Hact. simpl in Hact.
  exists s'. by rewrite Hload, Hr.
Qed.

(** C5.  Registry round trip: after [hako_init], registering a batch of at
    most 32 entries that have a name and a bytecode reference, with
    pairwise distinct names, succeeds; [hako_find_bytecode] then returns,
    for every name of the batch, the bytecode reference registered with
    it, and [NULL] for every name that is not in the batch. *)
Theorem registry_round_trip s0 entries rest :
  length (Loader.g_bytecode_registry s0) = MAX_BYTECODE_MODULES ->
  Loader.g_vm_initialized s0 = false ->
  Forall valid_entry entries ->
  NoDup (name <$> entries) ->
  length entries <= MAX_BYTECODE_MODULES ->
  exists s',
    Loader.hako_load_registry (Some (entries ++ rest)) (length entries)
      (Loader.hako_init s0).2 = Some (0%Z, s') /\
    (forall e, e ∈ entries -> find (name e) s' = Some (bytecode e)) /\
    (forall nm, Some nm ∉ name <$> entries -> find (Some nm) s' = Some NULL).
Proof.
  intros Hlen Hinit Hvalid Hnodup Hcap.
  destruct (hako_init_fresh s0 Hlen Hinit) as (Hwf & Hinit' & Hcount).
  destruct (load_into_empty _ entries rest Hwf Hinit' Hcount Hvalid)
    as (s' & Hload & Hwf' & Hact).
  rewrite decide_True in Hload by done.
  rewrite take_ge in Hact by done.
  exists s'. split; [done|]. split.
  - intros e Hin.
    destruct (proj1 (Forall_forall _ _) Hvalid e Hin) as [[nm Hname] _].
    rewrite Hname, find_spec, Hact by done.
    f_equal. by apply first_match_nodup.
  - intros nm Hnot. rewrite find_spec, Hact by done.
    f_equal. by apply first_match_absent.
Qed.

(** C6.  Capacity boundary: after [hako_init], one batch of 33 entries
    that all have a name and a bytecode reference returns [-ENOMEM]; the
    registry then holds exactly the first 32 entries of the batch, each of
    them is found by its name, and when the names are pairwise distinct
    each name returns its own bytecode and the 33rd name is not found. *)
Theorem capacity_boundary s0 entries rest :
  length (Loader.g_bytecode_registry s0) = MAX_BYTECODE_MODULES ->
  Loader.g_vm_initialized s0 = false ->
  Forall valid_entry entries ->
  length entries = S MAX_BYTECODE_MODULES ->
  exists s',
    Loader.hako_load_registry (Some (entries ++ rest)) (S MAX_BYTECODE_MODULES)
      (Loader.hako_init s0).2 = Some ((- ENOMEM)%Z, s') /\
    Loader.g_bytecode_count s' = MAX_BYTECODE_MODULES /\
    active s' = take MAX_BYTECODE_MODULES entries /\
    (forall e, e ∈ take MAX_BYTECODE_MODULES entries ->
       exists bc, find (name e) s' = Some bc /\ bc <> NULL) /\
    (NoDup (name <$> entries) ->
       (forall e, e ∈ take MAX_BYTECODE_MODULES entries ->
          find (name e) s' = Some (bytecode e)) /\
       (forall e, entries !! MAX_BYTECODE_MODULES = Some e ->
          find (name e) s' = Some NULL)).
Proof.
  intros Hlen Hinit Hvalid Hsize.
  destruct (hako_init_fresh s0 Hlen Hinit) as (Hwf & Hinit' & Hcount).
  destruct (load_into_empty _ entries rest Hwf Hinit' Hcount Hvalid)
    as (s' & Hload & Hwf' & Hact).
  rewrite Hsize, decide_False in Hload by lia.
  assert (Hvalid32 : Forall valid_entry (take MAX_BYTECODE_MODULES entries))
    by (by apply Forall_take).
  exists s'. split; [done|]. split; [|split; [done|split]].
  - rewrite <- length_active, Hact, length_take by done. lia.
  - intros e Hin.
    destruct (proj1 (Forall_forall _ _) Hvalid32 e Hin) as [[nm Hname] _].
    exists (first_match (take MAX_BYTECODE_MODULES entries) nm).
    rewrite Hname, find_spec, Hact by done.
    split; [done|]. by eapply first_match_found.
  - intros Hnodup.
    rewrite <- (take_drop MAX_BYTECODE_MODULES entries), fmap_app in Hnodup.
    apply NoDup_app in Hnodup as (Hnd32 & Hdisjoint & _).
    split.
    + intros e Hin.
      destruct (proj1 (Forall_forall _ _) Hvalid32 e Hin) as [[nm Hname] _].
      rewrite Hname, find_spec, Hact by done.
      f_equal. by apply first_match_nodup.
    + intros e Hlast.
      assert (Hin : e ∈ drop MAX_BYTECODE_MODULES entries).
      { apply list_elem_of_lookup. exists 0.
        by rewrite lookup_drop, Nat.add_0_r. }
      assert (He : e ∈ entries) by (by eapply list_elem_of_lookup_2).
      destruct (proj1 (Forall_forall _ _) Hvalid e He) as [[nm Hname] _].
      rewrite Hname, find_spec, Hact by done.
      f_equal. apply first_match_absent. intros Hdup.
      apply (Hdisjoint _ Hdup). rewrite <- Hname.
      by apply list_elem_of_fmap_2.
Qed.

(** A name found in an initialised registry is found, with the same
    bytecode, in every later state. *)
Lemma find_stable s s' nm bc :
  wf s -> Loader.g_vm_initialized s = true ->
  find (Some nm) s = Some bc -> bc <> NULL ->
  steps s s' -> find (Some nm) s' = Some bc.
Proof.
  intros Hwf Hinit Hfind Hbc Hsteps.
  destruct (steps_prefix s s' Hwf Hinit Hsteps) as (Hwf' & _ & Hpre).
  rewrite find_spec in Hfind |- * by done.
  injection Hfind as Hfind. f_equal. rewrite <- Hfind.
  apply first_match_prefix; [apply Hwf | done | congruence].
Qed.

Lemma find_after_duplicates s s' nm b1 b2 :
  wf s -> wf s' -> find (Some nm) s = Some NULL -> b1 <> NULL ->
  active s' = active s ++ [BytecodeEntry (Some nm) b1; BytecodeEntry (Some nm) b2] ->
  find (Some nm) s' = Some b1.
Proof.
  intros Hwf Hwf' Hnone Hb1 Hact.
  rewrite find_spec in Hnone |- * by done. injection Hnone as Hnone.
  rewrite Hact, first_match_app, Hnone by apply Hwf. simpl.
  by rewrite bool_decide_eq_true_2.
Qed.

(** C7.  Duplicate names: in an initialised registry with room for two
    more entries and no entry named [nm], registering two entries named
    [nm] (in one batch, or in two calls) succeeds, both are appended to the
    table, and in the resulting state and in every state reached from it
    by public operations [hako_find_bytecode] returns the bytecode of the
    first of the two. *)
Theorem duplicate_names s nm b1 b2 rest rest1 rest2 :
  wf s -> Loader.g_vm_initialized s = true ->
  Loader.g_bytecode_count s + 2 <= MAX_BYTECODE_MODULES ->
  find (Some nm) s = Some NULL ->
  b1 <> NULL -> b2 <> NULL ->
  let e1 := BytecodeEntry (Some nm) b1 in
  let e2 := BytecodeEntry (Some nm) b2 in
  (exists s',
     Loader.hako_load_registry (Some (e1 :: e2 :: rest)) 2 s = Some (0%Z, s') /\
     active s' = active s ++ [e1; e2] /\
     forall s'', steps s' s'' -> find (Some nm) s'' = Some b1) /\
  (exists s1 s2,
     Loader.hako_load_registry (Some (e1 :: rest1)) 1 s = Some (0%Z, s1) /\
     Loader.hako_load_registry (Some (e2 :: rest2)) 1 s1 = Some (0%Z, s2) /\
     active s2 = active s ++ [e1; e2] /\
     forall s'', steps s2 s'' -> find (Some nm) s'' = Some b1).
Proof.
  intros Hwf Hinit Hroom Hnone Hb1 Hb2 e1 e2.
  assert (Hv1 : valid_entry e1) by (split; [by eexists | done]).
  assert (Hv2 : valid_entry e2) by (split; [by eexists | done]).
  split.
  - destruct (load_registry_total (e1 :: e2 :: rest) 2 s) as [[r s'] Hload];
      [simpl; lia|].
    pose proof Hload as Hspec.
    apply load_registry_spec in Hspec as (Hwf' & Hsame & Hact & Hr); [|done..].
    change (e1 :: e2 :: rest) with ([e1; e2] ++ rest) in Hact, Hr.
    change 2 with (length [e1; e2]) in Hact, Hr.
    rewrite offered_all_valid in Hact, Hr by (by repeat constructor).
    rewrite take_ge in Hact by (simpl; lia).
    rewrite decide_True in Hr by (simpl; lia). subst r.
    exists s'. split; [done|]. split; [done|].
    intros s'' Hsteps.
    eapply find_stable; [exact Hwf' | | | exact Hb1 | exact Hsteps].
    + destruct Hsame as (-> & _). done.
    + by apply (find_after_duplicates s s' nm b1 b2).
  - destruct (load_registry_total (e1 :: rest1) 1 s) as [[r1 s1] Hload1];
      [simpl; lia|].
    pose proof Hload1 as Hspec1.
    apply load_registry_spec in Hspec1 as (Hwf1 & Hsame1 & Hact1 & Hr1);
      [|done..].
    change (e1 :: rest1) with ([e1] ++ rest1) in Hact1, Hr1.
    change 1 with (length [e1]) in Hact1, Hr1.
    rewrite offered_all_valid in Hact1, Hr1 by (by repeat constructor).
    rewrite take_ge in Hact1 by (simpl; lia).
    rewrite decide_True in Hr1 by (simpl; lia). subst r1.
    assert (Hinit1 : Loader.g_vm_initialized s1 = true)
      by (destruct Hsame1 as (-> & _); done).
    assert (Hcount1 : Loader.g_bytecode_count s1 = S (Loader.g_bytecode_count s)).
    { rewrite <- !length_active, Hact1, length_app by done. simpl. lia. }
    destruct (load_registry_total (e2 :: rest2) 1 s1) as [[r2 s2] Hload2];
      [simpl; lia|].
    pose proof Hload2 as Hspec2.
    apply load_registry_spec in Hspec2 as (Hwf2 & Hsame2 & Hact2 & Hr2);
      [|done..].
    change (e2 :: rest2) with ([e2] ++ rest2) in Hact2, Hr2.
    change 1 with (length [e2]) in Hact2, Hr2.
    rewrite offered_all_valid in Hact2, Hr2 by (by repeat constructor).
    rewrite take_ge in Hact2 by (simpl; lia).
    rewrite decide_True in Hr2 by (simpl; lia). subst r2.
    rewrite Hact1, <- app_assoc in Hact2. simpl in Hact2.
    exists s1, s2. split; [done|]. split; [done|]. split; [done|].
    intros s'' Hsteps.
    eapply find_stable; [exact Hwf2 | | | exact Hb1 | exact Hsteps].
    + destruct Hsame2 as (-> & _). done.
    + by apply (find_after_duplicates s s2 nm b1 b2).
Qed.

(** *** The capacity invariant *)

Lemma registry_loop_count tbl count s fl s' :
  Loader.g_bytecode_count s <= MAX_BYTECODE_MODULES ->
  Loader.registry_loop tbl count s = Some (fl, s') ->
  Loader.g_bytecode_count s' <= MAX_BYTECODE_MODULES.
Proof.
  revert tbl s. induction count as [|count IH]; intros tbl s Hcap; simpl.
  - by intros [= _ <-].
  - destruct tbl as [|e tbl]; [done|].
    destruct (name e); [|by intros [= _ <-]].
    destruct (N.eqb (bytecode e) NULL); [by apply IH|].
    destruct (Nat.ltb_spec (Loader.g_bytecode_count s) MAX_BYTECODE_MODULES).
    + apply IH. simpl. lia.
    + by intros [= _ <-].
Qed.

Lemma step_count o s s' :
  Loader.g_bytecode_count s <= MAX_BYTECODE_MODULES -> step o s = Some s' ->
  Loader.g_bytecode_count s' <= MAX_BYTECODE_MODULES.
Proof.
  intros Hcap. destruct o as [|registry count|nm bc| |nm]; simpl.
  - intros [= <-]. destruct (Loader.g_vm_initialized s) eqn:Hinit.
    + by rewrite hako_init_again.
    + destruct (hako_init_first s Hinit) as (_ & _ & -> & _). lia.
  - unfold Loader.hako_load_registry.
    destruct (negb (Loader.g_vm_initialized s)); [by intros [= <-]|].
    destruct registry as [tbl|]; [|by intros [= <-]].
    destruct (Loader.registry_loop tbl count _) as [[fl s1]|] eqn:Hloop;
      [|done].
    apply registry_loop_count in Hloop; [|done].
    destruct fl; by intros [= <-].
  - intros [= <-]. by destruct (load_bytecode_frame nm bc s) as (_ & -> & _).
  - destruct (Loader.hako_run s) as [[r s1]|] eqn:Hrun; intros [= <-].
    by destruct (run_frame _ _ _ Hrun) as (_ & -> & _).
  - destruct (Loader.hako_find_bytecode nm s) as [[b s1]|] eqn:Hfind;
      intros [= <-].
    by destruct (find_bytecode_frame _ _ _ _ Hfind) as ((_ & -> & _) & _).
Qed.

(** C9.  Capacity invariant: [g_bytecode_count <= 32] holds at boot, every
    public operation ([hako_init], [hako_load_registry],
    [hako_load_bytecode], [hako_run], [hako_find_bytecode]) preserves it,
    so it holds in every reachable state; and [hako_load_registry] never
    drops an entry silently: it returns 0 and has appended every entry the
    batch offers, or it returns [-ENOMEM], the batch offered more than the
    free slots and the registry is full. *)
Theorem capacity_invariant :
  (forall m, Loader.g_bytecode_count (Loader.boot m) <= MAX_BYTECODE_MODULES) /\
  (forall o s s',
     Loader.g_bytecode_count s <= MAX_BYTECODE_MODULES ->
     step o s = Some s' ->
     Loader.g_bytecode_count s' <= MAX_BYTECODE_MODULES) /\
  (forall s, reachable s -> Loader.g_bytecode_count s <= MAX_BYTECODE_MODULES) /\
  (forall s tbl count r s',
     reachable s -> Loader.g_vm_initialized s = true ->
     Loader.hako_load_registry (Some tbl) count s = Some (r, s') ->
     (r = 0%Z /\ active s' = active s ++ offered tbl count) \/
     (r = (- ENOMEM)%Z /\
      MAX_BYTECODE_MODULES < Loader.g_bytecode_count s + length (offered tbl count) /\
      Loader.g_bytecode_count s' = MAX_BYTECODE_MODULES)).
Proof.
  split; [|split; [|split]].
  - intros m. simpl. lia.
  - apply step_count.
  - intros s Hreach. by destruct (reachable_wf s Hreach) as (_ & Hcap & _).
  - intros s tbl count r s' Hreach Hinit Hload.
    pose proof (reachable_wf s Hreach) as Hwf.
    apply load_registry_spec in Hload as (Hwf' & _ & Hact & Hr); [|done..].
    case_decide as Hfit; subst r.
    + left. split; [done|]. by rewrite take_ge in Hact.
    + right. split; [done|]. split; [lia|].
      rewrite <- (length_active s'), Hact, length_app, length_take,
        length_active by done.
      destruct Hwf as (_ & Hcap & _). lia.
Qed.

(** *** Life cycle *)

(** C8.  [hako_init] is idempotent: on an initialised runtime (the
    supervisor started or not) it returns 0 and changes no global and
    nothing of the interpreter, the threads or the extension callbacks;
    it only logs the warning. *)
Theorem init_idempotent s :
  Loader.g_vm_initialized s = true ->
  let s' := (Loader.hako_init s).2 in
  (Loader.hako_init s).1 = 0%Z /\
  Loader.g_bytecode_registry s' = Loader.g_bytecode_registry s /\
  Loader.g_bytecode_count s' = Loader.g_bytecode_count s /\
  Loader.g_vm_initialized s' = true /\
  Loader.g_vm s' = Loader.g_vm s /\
  Loader.g_vm_thread_started s' = Loader.g_vm_thread_started s /\
  Loader.g_core_methods_registered s' = Loader.g_core_methods_registered s /\
  Loader.vm s' = Loader.vm s /\
  Loader.spawned s' = Loader.spawned s /\
  Loader.ext_invoked s' = Loader.ext_invoked s /\
  Loader.zlog s' =
    Loader.zlog s ++ [(LOG_WRN, "HAKO VM already initialized"%string)].
Proof.
  intros Hinit. rewrite hako_init_again by done. simpl. by repeat split.
Qed.

(** The original loader returns at the same test. *)
Lemma original_init_idempotent fuel section s :
  Original.g_vm_initialized s = true ->
  Original.hako_init fuel section s =
  Original.Returned
    (0%Z, Original.klog LOG_WRN "HAKO VM already initialized" s).
Proof. intros Hinit. unfold Original.hako_init. by rewrite Hinit. Qed.

Lemma find_found nm s bc :
  find (Some nm) s = Some bc -> bc <> NULL ->
  Loader.hako_find_bytecode_locked (Some nm) s =
  Some (bc, Loader.klog LOG_DBG "Found bytecode: %s" s).
Proof.
  unfold find, Loader.hako_find_bytecode, Loader.hako_find_bytecode_locked.
  destruct (Loader.find_loop _ _ nm) as [[b|]|]; simpl; [| |done].
  - by intros [= ->].
  - intros [= <-]. done.
Qed.

Lemma find_same_registry nm s s' :
  same_registry s s' -> find nm s' = find nm s.
Proof.
  intros (Hreg & Hcnt & _).
  unfold find, Loader.hako_find_bytecode, Loader.hako_find_bytecode_locked.
  rewrite Hreg, Hcnt. destruct nm as [n|]; [|done].
  by destruct (Loader.find_loop _ _ n) as [[b|]|].
Qed.

Lemma find_missing nm s :
  find (Some nm) s = Some NULL ->
  exists dbg,
    Loader.hako_find_bytecode_locked (Some nm) s =
    Some (NULL, Loader.klog LOG_DBG dbg s).
Proof.
  unfold find, Loader.hako_find_bytecode, Loader.hako_find_bytecode_locked.
  destruct (Loader.find_loop _ _ nm) as [[b|]|]; simpl; [| |done].
  - intros [= ->]. by eexists.
  - intros _. by eexists.
Qed.

(** A start that succeeds on a runtime whose supervisor is not running
    creates one thread and sets [g_vm_thread_started]. *)
Lemma start_spawns_once s r s1 :
  Loader.g_vm_initialized s = true ->
  Loader.g_vm_thread_started s = false ->
  Loader.hako_run s = Some (r, s1) -> (0 <= r)%Z ->
  Loader.g_vm_initialized s1 = true /\
  Loader.g_vm_thread_started s1 = true /\
  Loader.spawned s1 = S (Loader.spawned s).
Proof.
  intros Hinit Hstarted.
  unfold Loader.hako_run, Loader.hako_start_vm_thread.
  rewrite Hinit, Hstarted. simpl negb. cbv iota.
  destruct (Loader.hako_find_bytecode_locked (Some "main"%string) s)
    as [[b s0]|] eqn:Hfind; [|done].
  apply (find_bytecode_frame (Some "main"%string)) in Hfind
    as [(_ & _ & Hinit0) (_ & _ & _ & _ & _ & Hsp0 & _)].
  destruct (N.eqb b NULL).
  - intros [= <- <-] _. simpl. rewrite Hinit0, Hsp0. done.
  - pose proof (load_bytecode_locked_frame (Some "main"%string) b s0) as Hload.
    destruct (Loader.hako_load_bytecode_locked _ b s0) as [ret s2].
    simpl in Hload. destruct Hload as ((_ & _ & Hinit2) & _ & Hsp2 & _).
    destruct (Z.ltb_spec ret 0); intros [= <- <-] Hr; [lia|].
    simpl. rewrite Hinit2, Hsp2, Hinit0, Hsp0. done.
Qed.

(** C4.  [hako_run]: before [hako_init] it returns [-EINVAL]; after a
    start that succeeded, it returns 0 and leaves the whole state as it is
    (no second thread, no second task for "main"); and on an initialised
    runtime where "main" is not registered it returns 0, and when the
    supervisor was not running it has logged the warning and created the
    one thread. *)
Theorem run_semantics :
  (forall s,
     Loader.g_vm_initialized s = false ->
     Loader.hako_run s =
     Some ((- EINVAL)%Z, Loader.klog LOG_ERR "VM not initialized" s)) /\
  (forall s s1,
     Loader.g_vm_initialized s = true ->
     Loader.g_vm_thread_started s = false ->
     Loader.hako_run s = Some (0%Z, s1) ->
     Loader.spawned s1 = S (Loader.spawned s) /\
     Loader.hako_run s1 = Some (0%Z, s1)) /\
  (forall s,
     Loader.g_vm_initialized s = true ->
     find (Some "main"%string) s = Some NULL ->
     exists s1,
       Loader.hako_run s = Some (0%Z, s1) /\
       (Loader.g_vm_thread_started s = false ->
        Loader.g_vm_thread_started s1 = true /\
        Loader.spawned s1 = S (Loader.spawned s) /\
        Loader.vm s1 = Loader.vm s /\
        last (Loader.zlog s1) =
          Some (LOG_WRN,
                "Main bytecode not found; VM thread will idle until tasks are created"%string))).
Proof.
  split; [|split].
  - intros s Hinit. unfold Loader.hako_run, Loader.hako_start_vm_thread.
    by rewrite Hinit.
  - intros s s1 Hinit Hstarted Hrun.
    destruct (start_spawns_once s 0%Z s1 Hinit Hstarted Hrun)
      as (Hinit1 & Hstarted1 & Hsp); [lia|].
    split; [done|].
    unfold Loader.hako_run, Loader.hako_start_vm_thread.
    by rewrite Hinit1, Hstarted1.
  - intros s Hinit Hmain.
    unfold Loader.hako_run, Loader.hako_start_vm_thread.
    rewrite Hinit. simpl negb. cbv iota.
    destruct (Loader.g_vm_thread_started s); [by eexists|].
    destruct (find_missing _ _ Hmain) as [dbg ->]. simpl.
    eexists. split; [done|]. intros _. simpl.
    repeat split. by rewrite last_snoc.
Qed.

(** C10.  When "main" is registered and creating its task fails,
    [hako_run] returns [-ENOMEM] with no thread created and
    [g_vm_thread_started] still false: the globals and the thread count are
    those before the call.  The next [hako_run] looks "main" up and tries
    to load it again; when the task is then created, it returns 0, the
    thread is created and [g_vm_thread_started] is set. *)
Theorem run_failure_is_retried s bc m1 :
  Loader.g_vm_initialized s = true ->
  Loader.g_vm_thread_started s = false ->
  find (Some "main"%string) s = Some bc -> bc <> NULL ->
  mrbc_create_task bc (Loader.vm s) = (NULL, m1) ->
  exists s1,
    Loader.hako_run s = Some ((- ENOMEM)%Z, s1) /\
    Loader.g_vm_initialized s1 = true /\
    Loader.g_vm_thread_started s1 = false /\
    Loader.spawned s1 = Loader.spawned s /\
    Loader.g_vm s1 = Loader.g_vm s /\
    Loader.g_bytecode_registry s1 = Loader.g_bytecode_registry s /\
    Loader.g_bytecode_count s1 = Loader.g_bytecode_count s /\
    Loader.vm s1 = m1 /\
    Loader.hako_run s1 =
      (let '(ret, s2) :=
         Loader.hako_load_bytecode_locked (Some "main"%string) bc
           (Loader.klog LOG_DBG "Found bytecode: %s" s1) in
       if Z.ltb ret 0 then Some (ret, s2)
       else Some (ret, Loader.spawn_vm_thread s2)) /\
    (forall tcb m2,
       mrbc_create_task bc m1 = (tcb, m2) -> tcb <> NULL ->
       exists s2,
         Loader.hako_run s1 = Some (0%Z, s2) /\
         Loader.g_vm_thread_started s2 = true /\
         Loader.spawned s2 = S (Loader.spawned s) /\
         Loader.vm s2 = mrbc_set_task_name tcb "main" m2).
Proof.
  intros Hinit Hstarted Hmain Hbc Hfail.
  assert (Hnz : N.eqb bc NULL = false) by (by apply N.eqb_neq).
  set (s1 := Loader.klog LOG_ERR "Failed to create task for %s"
               (Loader.with_vm m1 (Loader.klog LOG_DBG "Found bytecode: %s" s))).
  assert (Hrun : Loader.hako_run s = Some ((- ENOMEM)%Z, s1)).
  { unfold Loader.hako_run, Loader.hako_start_vm_thread.
    rewrite Hinit, Hstarted. simpl negb. cbv iota.
    rewrite (find_found _ _ _ Hmain Hbc), Hnz.
    unfold Loader.hako_load_bytecode_locked. simpl Loader.vm.
    by rewrite Hfail. }
  assert (Hmain1 : find (Some "main"%string) s1 = Some bc).
  { rewrite <- Hmain. by apply find_same_registry. }
  assert (Hrun1 : Loader.hako_run s1 =
      (let '(ret, s2) :=
         Loader.hako_load_bytecode_locked (Some "main"%string) bc
           (Loader.klog LOG_DBG "Found bytecode: %s" s1) in
       if Z.ltb ret 0 then Some (ret, s2)
       else Some (ret, Loader.spawn_vm_thread s2))).
  { unfold Loader.hako_run, Loader.hako_start_vm_thread.
    change (Loader.g_vm_initialized s1) with (Loader.g_vm_initialized s).
    change (Loader.g_vm_thread_started s1) with (Loader.g_vm_thread_started s).
    rewrite Hinit, Hstarted. simpl negb. cbv iota.
    by rewrite (find_found _ _ _ Hmain1 Hbc), Hnz. }
  exists s1. repeat (split; [done|]).
  intros tcb m2 Hok Htcb. rewrite Hrun1.
  unfold Loader.hako_load_bytecode_locked.
  change (Loader.vm (Loader.klog LOG_DBG "Found bytecode: %s" s1)) with m1.
  rewrite Hok. rewrite (proj2 (N.eqb_neq tcb NULL) Htcb).
  change (0 <? 0)%Z with false. cbv iota.
  destruct (N.eqb (Loader.g_vm _) NULL);
    (eexists; split; [reflexivity|]; by repeat split).
Qed.

(** *** The extension catalog *)

Lemma count_extensions_length section count :
  count_extensions section count = count + length section.
Proof.
  revert count. induction section as [|ext rest IH]; intros count; simpl.
  - lia.
  - rewrite IH. lia.
Qed.

(** The walk of the threaded loader calls the callbacks in section order,
    each once, when no [init] pointer is null. *)
Lemma init_loop_order exts i s :
  Forall (fun ext => is_Some (init ext)) exts ->
  exists s',
    Loader.init_loop exts i s = Some s' /\
    Loader.ext_invoked s' = Loader.ext_invoked s ++ seq i (length exts) /\
    same_registry s s'.
Proof.
  intros Hall. revert i s.
  induction Hall as [|ext rest [f Hf] _ IH]; intros i s; simpl.
  - exists s. rewrite app_nil_r. by repeat split.
  - rewrite Hf.
    destruct (IH (S i)
                (Loader.invoke i f
                   (Loader.klog LOG_DBG
                      "Initializing extension: %s (priority %d)" s)))
      as (s' & -> & Htrace & Hreg).
    exists s'. split; [done|]. split; [|exact Hreg].
    rewrite Htrace. simpl. by rewrite <- app_assoc.
Qed.

Lemma init_extensions_each_once section s :
  Forall (fun ext => is_Some (init ext)) section ->
  exists s',
    Loader.hako_init_extensions section s = Some s' /\
    Loader.ext_invoked s' = Loader.ext_invoked s ++ seq 0 (length section).
Proof.
  intros Hall. unfold Loader.hako_init_extensions.
  destruct (init_loop_order section 0
              (Loader.klog LOG_INF "Found %zu extension(s)"
                 (Loader.klog LOG_INF "Discovering HAKO extensions..." s))
              Hall) as (s' & -> & Htrace & _).
  eexists. split; [done|]. exact Htrace.
Qed.

(** A null [init] pointer is called all the same. *)
Lemma init_loop_null exts i s :
  Exists (fun ext => init ext = None) exts -> Loader.init_loop exts i s = None.
Proof.
  intros Hex. revert i s.
  induction Hex as [ext rest Hnull|ext rest _ IH]; intros i s; simpl.
  - by rewrite Hnull.
  - destruct (init ext); [apply IH | done].
Qed.

(** The priority loop of the original loader never exits: [prio] stays a
    [uint8_t], and [prio <= 255] holds of each of them. *)
Lemma priority_loop_never_returns fuel section prio s :
  (0 <= prio <= 255)%Z ->
  exists s', Original.priority_loop fuel section prio s = Original.Looping s'.
Proof.
  revert prio s. induction fuel as [|fuel IH]; intros prio s Hprio; simpl.
  - by eexists.
  - rewrite (proj2 (Z.leb_le prio 255)) by lia.
    apply IH.
    pose proof (Z.mod_pos_bound (prio + 1) 256). lia.
Qed.

Lemma original_init_extensions_never_returns fuel section s :
  section <> [] ->
  exists s',
    Original.hako_init_extensions fuel section s = Original.Looping s'.
Proof.
  intros Hne. unfold Original.hako_init_extensions.
  rewrite count_extensions_length.
  destruct section as [|ext rest]; [done|]. simpl Nat.eqb. cbv iota.
  destruct (priority_loop_never_returns fuel (ext :: rest) 0
              (Original.klog LOG_INF "Found %zu extension(s)"
                 (Original.klog LOG_INF "Discovering HAKO extensions..." s)))
    as [s' ->]; [lia|].
  by eexists.
Qed.

(** C1 (evaluation of the code).  For the priorities 50, 10, 90, 10 the
    walk of the threaded loader calls the callbacks in section order,
    50, 10, 90, 10, and not in the ascending order 10, 10, 50, 90. *)
Theorem walk_ignores_priority m :
  exists s',
    Loader.hako_init_extensions Example.four_priorities (Loader.boot m) =
      Some s' /\
    Loader.ext_invoked s' = [0; 1; 2; 3] /\
    priorities_of Example.four_priorities (Loader.ext_invoked s') =
      [50; 10; 90; 10]%Z /\
    priorities_of Example.four_priorities (Loader.ext_invoked s') <>
      [10; 10; 50; 90]%Z.
Proof.
  eexists. split; [reflexivity|]. split; [reflexivity|].
  split; [reflexivity | discriminate].
Qed.

(** The original loader reaches the ascending order after one sweep of the
    priorities, then sweeps again. *)
Lemma original_walk_sorts_then_repeats m :
  (exists s',
     Original.hako_init_extensions 256 Example.four_priorities
       (Original.boot m) = Original.Looping s' /\
     priorities_of Example.four_priorities (Original.ext_invoked s') =
       [10; 10; 50; 90]%Z) /\
  (exists s',
     Original.hako_init_extensions 512 Example.four_priorities
       (Original.boot m) = Original.Looping s' /\
     priorities_of Example.four_priorities (Original.ext_invoked s') =
       [10; 10; 50; 90; 10; 10; 50; 90]%Z).
Proof.
  split; (eexists; split; [vm_compute; reflexivity | vm_compute; reflexivity]).
Qed.

(** C3 (evaluation of the code).  With the one extension of the
    repository in the section, [hako_init_extensions] of the threaded
    loader returns and has called the callback once;
    [hako_init_extensions] of the original loader does not return,
    whatever the number of iterations allowed, and after 512 iterations of
    its priority loop the callback has been called twice. *)
Theorem original_walk_never_returns m :
  (exists s',
     Loader.hako_init_extensions [Example.zephyr_gpio] (Loader.boot m) =
       Some s' /\
     Loader.ext_invoked s' = [0]) /\
  (forall fuel,
     exists s',
       Original.hako_init_extensions fuel [Example.zephyr_gpio]
         (Original.boot m) = Original.Looping s') /\
  (exists s',
     Original.hako_init_extensions 512 [Example.zephyr_gpio]
       (Original.boot m) = Original.Looping s' /\
     Original.ext_invoked s' = [0; 0]).
Proof.
  split; [|split].
  - eexists. split; reflexivity.
  - intros fuel. by apply original_init_extensions_never_returns.
  - eexists. split; [vm_compute; reflexivity | vm_compute; reflexivity].
Qed.

End Properties.

(** ** Further properties of the threaded loader *)

Section More.
Context `{Interpreter}.

(** *** Registration: rejected calls, skipped entries, the end of a table *)

(** Before [hako_init], or with a null table, [hako_load_registry] returns
    [-EINVAL] and only writes an error to the log: nothing is registered
    and no other global changes. *)
Theorem load_registry_rejects registry count s :
  Loader.g_vm_initialized s = false \/ registry = None ->
  exists msg,
    Loader.hako_load_registry registry count s =
    Some ((- EINVAL)%Z, Loader.klog LOG_ERR msg s).
Proof.
  unfold Loader.hako_load_registry.
  destruct (Loader.g_vm_initialized s); simpl.
  - intros [Hinit| ->]; [done | by eexists].
  - intros _. by eexists.
Qed.

Lemma offered_named tbl :
  Forall (fun e => is_Some (name e)) tbl ->
  offered tbl (length tbl) = filter (fun e => bytecode e <> NULL) tbl.
Proof.
  induction 1 as [|e tbl [nm Hname] _ IH]; simpl; [done|].
  rewrite Hname. destruct (N.eqb_spec (bytecode e) NULL) as [Hnull|Hnn].
  - by rewrite filter_cons_False by (intros Hbc; by apply Hbc).
  - by rewrite filter_cons_True, IH by done.
Qed.

(** In a table of named entries, those without bytecode are skipped: they
    are not an error and take no slot.  When the entries that have a
    bytecode fit in the free slots, the call returns 0 and has appended
    exactly these, in table order. *)
Theorem null_bytecode_is_skipped tbl s :
  wf s -> Loader.g_vm_initialized s = true ->
  Forall (fun e => is_Some (name e)) tbl ->
  length (filter (fun e => bytecode e <> NULL) tbl)
    <= MAX_BYTECODE_MODULES - Loader.g_bytecode_count s ->
  exists s',
    Loader.hako_load_registry (Some tbl) (length tbl) s = Some (0%Z, s') /\
    active s' = active s ++ filter (fun e => bytecode e <> NULL) tbl.
Proof.
  intros Hwf Hinit Hnamed Hfit.
  destruct (load_registry_total tbl (length tbl) s) as [[r s'] Hload]; [lia|].
  pose proof Hload as Hspec.
  apply load_registry_spec in Hspec as (_ & _ & Hact & Hr); [|done..].
  rewrite offered_named in Hact, Hr by done.
  rewrite decide_True in Hr by done. subst r.
  rewrite take_ge in Hact by done.
  by exists s'.
Qed.

Lemma registry_loop_terminator entries bc rest count s :
  Forall (fun e => is_Some (name e)) entries ->
  length entries <= count ->
  Loader.registry_loop (entries ++ BytecodeEntry None bc :: rest) count s =
  Loader.registry_loop entries (length entries) s.
Proof.
  intros Hnamed. revert count s.
  induction Hnamed as [|e entries [nm Hname] _ IH]; intros count s Hlen; simpl.
  - by destruct count.
  - destruct count as [|count]; simpl in *; [lia|].
    rewrite Hname.
    destruct (N.eqb (bytecode e) NULL); [apply IH; lia|].
    destruct (Loader.g_bytecode_count s <? MAX_BYTECODE_MODULES);
      [apply IH; lia | done].
Qed.

(** An entry with a null name ends the table whatever [count] says: with
    [count] at least the number of entries before it, the call does what
    it does on these entries alone, and nothing after the null name is
    read or registered. *)
Theorem null_name_ends_the_table entries bc rest count s :
  Forall (fun e => is_Some (name e)) entries ->
  length entries <= count ->
  Loader.hako_load_registry
    (Some (entries ++ BytecodeEntry None bc :: rest)) count s =
  Loader.hako_load_registry (Some entries) (length entries) s.
Proof.
  intros Hnamed Hlen. unfold Loader.hako_load_registry.
  by rewrite registry_loop_terminator.
Qed.

(** *** Lookup *)

Lemma first_match_none_iff l nm :
  Forall valid_entry l ->
  first_match l nm = NULL <-> Some nm ∉ name <$> l.
Proof.
  intros Hvalid. split.
  - intros Hnone Hin. apply list_elem_of_fmap in Hin as (e & Hname & Hin).
    by apply (first_match_valid l nm Hvalid Hnone e Hin).
  - apply first_match_absent.
Qed.

Lemma first_match_index l nm :
  first_match l nm <> NULL ->
  exists i e,
    l !! i = Some e /\ name e = Some nm /\ bytecode e = first_match l nm /\
    forall j e', j < i -> l !! j = Some e' -> name e' <> Some nm.
Proof.
  induction l as [|a l IH]; simpl; [done|].
  case_bool_decide as Ha; intros Hfound.
  - exists 0, a. repeat split; try done. intros j e' Hj. lia.
  - destruct (IH Hfound) as (i & e & Hi & Hname & Hbc & Hfirst).
    exists (S i), e. repeat split; try done.
    intros [|j] e' Hj; simpl.
    + by intros [= <-].
    + apply Hfirst. lia.
Qed.

(** In every reachable state a lookup has a defined result.  It is [NULL]
    exactly when no registered entry has the name; otherwise it is the
    bytecode of the registered entry of lowest index that has the name. *)
Theorem lookup_first_registered s nm :
  reachable s ->
  exists bc,
    find (Some nm) s = Some bc /\
    (bc = NULL <-> Some nm ∉ name <$> active s) /\
    (bc <> NULL ->
     exists i e,
       active s !! i = Some e /\ name e = Some nm /\ bytecode e = bc /\
       forall j e', j < i -> active s !! j = Some e' -> name e' <> Some nm).
Proof.
  intros Hreach. pose proof (reachable_wf s Hreach) as Hwf.
  exists (first_match (active s) nm). split; [by apply find_spec|].
  split; [apply first_match_none_iff, Hwf | apply first_match_index].
Qed.

(** *** The registry only grows *)

(** From an initialised reachable state on, public operations never
    remove or reorder registered entries and never leave the initialised
    state: the entries of the earlier state are a prefix of those of the
    later, the count does not decrease, and a name that was found is found
    with the same bytecode. *)
Theorem registry_only_grows s s' :
  reachable s -> Loader.g_vm_initialized s = true -> steps s s' ->
  Loader.g_vm_initialized s' = true /\
  active s `prefix_of` active s' /\
  Loader.g_bytecode_count s <= Loader.g_bytecode_count s' /\
  forall nm bc,
    find (Some nm) s = Some bc -> bc <> NULL -> find (Some nm) s' = Some bc.
Proof.
  intros Hreach Hinit Hsteps. pose proof (reachable_wf s Hreach) as Hwf.
  destruct (steps_prefix s s' Hwf Hinit Hsteps) as (Hwf' & Hinit' & Hpre).
  split; [done|]. split; [done|]. split.
  - rewrite <- (length_active s), <- (length_active s') by done.
    by apply prefix_length.
  - intros nm bc Hfind Hbc. exact (find_stable s s' nm bc Hwf Hinit Hfind Hbc Hsteps).
Qed.

(** Registration is not idempotent: loading the same table of valid
    entries twice into an empty registry appends it twice (up to the 32
    slots, the second call returning [-ENOMEM] when both copies do not
    fit), and every lookup answers as after the first load. *)
Theorem loading_twice_registers_twice s entries :
  wf s -> Loader.g_vm_initialized s = true -> Loader.g_bytecode_count s = 0 ->
  Forall valid_entry entries -> length entries <= MAX_BYTECODE_MODULES ->
  exists s1 s2,
    Loader.hako_load_registry (Some entries) (length entries) s =
      Some (0%Z, s1) /\
    Loader.hako_load_registry (Some entries) (length entries) s1 =
      Some ((if decide (2 * length entries <= MAX_BYTECODE_MODULES)
             then 0%Z else (- ENOMEM)%Z), s2) /\
    active s2 = take MAX_BYTECODE_MODULES (entries ++ entries) /\
    forall nm, find (Some nm) s2 = find (Some nm) s1.
Proof.
  intros Hwf Hinit Hcount Hvalid Hcap.
  destruct (load_into_empty s entries [] Hwf Hinit Hcount Hvalid)
    as (s1 & Hload1 & Hwf1 & Hact1).
  rewrite app_nil_r, decide_True in Hload1 by done.
  rewrite take_ge in Hact1 by done.
  assert (Hcount1 : Loader.g_bytecode_count s1 = length entries)
    by (by rewrite <- length_active, Hact1).
  assert (Hinit1 : Loader.g_vm_initialized s1 = true).
  { apply load_registry_spec in Hload1 as (_ & (-> & _) & _); done. }
  destruct (load_registry_total entries (length entries) s1)
    as [[r s2] Hload2]; [lia|].
  pose proof Hload2 as Hspec.
  apply load_registry_spec in Hspec as (Hwf2 & _ & Hact2 & Hr); [|done..].
  pose proof (offered_all_valid entries [] Hvalid) as Hoff.
  rewrite app_nil_r in Hoff. rewrite Hoff in Hact2, Hr.
  rewrite Hact1, Hcount1 in Hact2. rewrite Hcount1 in Hr.
  assert (Htake : take MAX_BYTECODE_MODULES (entries ++ entries) =
                  entries ++ take (MAX_BYTECODE_MODULES - length entries) entries).
  { rewrite take_app. by rewrite take_ge by done. }
  exists s1, s2. split; [done|]. split; [|split].
  - rewrite Hload2, Hr. repeat case_decide; (done || lia).
  - by rewrite Htake.
  - intros nm. rewrite !find_spec, Hact2, Hact1 by done. f_equal.
    rewrite first_match_app by done.
    destruct (N.eqb_spec (first_match entries nm) NULL) as [Hnone|]; [|done].
    rewrite Hnone. apply first_match_absent.
    apply (first_match_none_iff entries nm Hvalid) in Hnone.
    intros Hin. apply Hnone.
    apply list_elem_of_fmap in Hin as (e & Hname & Hin).
    apply list_elem_of_fmap. exists e. split; [done|].
    by eapply subseteq_take.
Qed.

(** *** The supervisor thread *)

Lemma load_registry_runtime registry count s r s' :
  wf s -> Loader.hako_load_registry registry count s = Some (r, s') ->
  same_runtime s s'.
Proof.
  intros Hwf Hload.
  destruct (Loader.g_vm_initialized s) eqn:Hinit.
  - destruct registry as [tbl|].
    + by apply load_registry_spec in Hload as (_ & Hsame & _).
    + unfold Loader.hako_load_registry in Hload. rewrite Hinit in Hload.
      injection Hload as <- <-. by repeat split.
  - unfold Loader.hako_load_registry in Hload. rewrite Hinit in Hload.
    injection Hload as <- <-. by repeat split.
Qed.

Lemma run_effect s r s1 :
  Loader.hako_run s = Some (r, s1) ->
  (Loader.g_vm_thread_started s1 = Loader.g_vm_thread_started s /\
   Loader.spawned s1 = Loader.spawned s) \/
  (Loader.g_vm_initialized s = true /\
   Loader.g_vm_thread_started s = false /\
   Loader.g_vm_thread_started s1 = true /\
   Loader.spawned s1 = S (Loader.spawned s)).
Proof.
  unfold Loader.hako_run, Loader.hako_start_vm_thread.
  destruct (Loader.g_vm_initialized s) eqn:Hinit; simpl negb; cbv iota;
    [|intros [= <- <-]; by left].
  destruct (Loader.g_vm_thread_started s) eqn:Hstarted;
    [intros [= <- <-]; by left|].
  destruct (Loader.hako_find_bytecode_locked (Some "main"%string) s)
    as [[b s0]|] eqn:Hfind; [|done].
  apply (find_bytecode_frame (Some "main"%string)) in Hfind
    as [_ (_ & _ & Hst0 & _ & _ & Hsp0 & _)].
  destruct (N.eqb b NULL).
  - intros [= <- <-]. right. simpl. by rewrite Hsp0.
  - pose proof (load_bytecode_locked_frame (Some "main"%string) b s0) as Hload.
    destruct (Loader.hako_load_bytecode_locked _ b s0) as [ret s2].
    simpl in Hload. destruct Hload as (_ & Hst2 & Hsp2 & _).
    destruct (Z.ltb ret 0); intros [= <- <-].
    + left. by rewrite Hst2, Hsp2, Hst0, Hsp0, Hstarted.
    + right. simpl. by rewrite Hsp2, Hsp0.
Qed.

Lemma step_thread_accounting o s s' :
  wf s -> thread_accounting s -> step o s = Some s' -> thread_accounting s'.
Proof.
  intros Hwf [Hcount Hinit]. unfold thread_accounting.
  destruct o as [|registry count|nm bc| |nm]; simpl.
  - intros [= <-]. destruct (Loader.g_vm_initialized s) eqn:Hi.
    + by rewrite hako_init_again.
    + destruct (hako_init_first s Hi) as (_ & -> & _ & _ & -> & -> & _).
      destruct (Loader.g_vm_thread_started s); [by specialize (Hinit eq_refl)|].
      done.
  - destruct (Loader.hako_load_registry registry count s) as [[r s1]|] eqn:Hload;
      intros [= <-].
    apply load_registry_runtime in Hload as (-> & _ & -> & _ & _ & -> & _);
      done.
  - intros [= <-].
    destruct (load_bytecode_locked_frame nm bc s) as ((_ & _ & Hi) & Hst & Hsp & _).
    unfold Loader.hako_load_bytecode.
    destruct (negb (Loader.g_vm_initialized s)); [done|].
    destruct (N.eqb bc NULL); [done|].
    by rewrite Hi, Hst, Hsp.
  - destruct (Loader.hako_run s) as [[r s1]|] eqn:Hrun; intros [= <-].
    pose proof (run_frame _ _ _ Hrun) as (_ & _ & Hi).
    destruct (run_effect _ _ _ Hrun) as [[-> ->]|(Hi0 & Hst0 & -> & ->)].
    + by rewrite Hi.
    + rewrite Hst0 in Hcount. rewrite Hcount, Hi. done.
  - destruct (Loader.hako_find_bytecode nm s) as [[b s1]|] eqn:Hfind;
      intros [= <-].
    apply find_bytecode_frame in Hfind
      as [(_ & _ & ->) (_ & _ & -> & _ & _ & -> & _)].
    done.
Qed.

Lemma reachable_thread_accounting s : reachable s -> thread_accounting s.
Proof.
  intros [m Hsteps].
  induction Hsteps as [|o s1 s2 Hsteps IH Hstep]; [by split|].
  apply (step_thread_accounting o s1 s2); [|done..].
  eapply steps_wf; [apply wf_boot | done].
Qed.

(** At most one supervisor thread: in every reachable state the number of
    threads created is 1 when [g_vm_thread_started] is set and 0 when it is
    not, and the flag is only set on an initialised runtime. *)
Theorem one_supervisor_thread s :
  reachable s ->
  Loader.spawned s = (if Loader.g_vm_thread_started s then 1 else 0) /\
  (Loader.g_vm_thread_started s = true -> Loader.g_vm_initialized s = true).
Proof.
  intros Hreach. exact (reachable_thread_accounting s Hreach).
Qed.

Lemma step_started o s s' :
  wf s -> Loader.g_vm_initialized s = true ->
  Loader.g_vm_thread_started s = true -> step o s = Some s' ->
  Loader.g_vm_thread_started s' = true /\
  Loader.spawned s' = Loader.spawned s.
Proof.
  intros Hwf Hinit Hstarted.
  destruct o as [|registry count|nm bc| |nm]; simpl.
  - rewrite hako_init_again by done. by intros [= <-].
  - destruct (Loader.hako_load_registry registry count s) as [[r s1]|] eqn:Hload;
      intros [= <-].
    apply load_registry_runtime in Hload as (_ & _ & -> & _ & _ & -> & _);
      done.
  - intros [= <-].
    unfold Loader.hako_load_bytecode. rewrite Hinit. simpl.
    destruct (N.eqb bc NULL); [done|].
    by destruct (load_bytecode_locked_frame nm bc s) as (_ & -> & -> & _).
  - unfold Loader.hako_run, Loader.hako_start_vm_thread.
    rewrite Hinit, Hstarted. by intros [= <-].
  - destruct (Loader.hako_find_bytecode nm s) as [[b s1]|] eqn:Hfind;
      intros [= <-].
    apply find_bytecode_frame in Hfind as [_ (_ & _ & -> & _ & _ & -> & _)].
    done.
Qed.

Lemma steps_started s s' :
  wf s -> Loader.g_vm_initialized s = true ->
  Loader.g_vm_thread_started s = true -> steps s s' ->
  wf s' /\ Loader.g_vm_initialized s' = true /\
  Loader.g_vm_thread_started s' = true /\
  Loader.spawned s' = Loader.spawned s.
Proof.
  intros Hwf Hinit Hstarted.
  induction 1 as [|o s1 s2 Hsteps IH Hstep]; [done|].
  destruct IH as (Hwf1 & Hinit1 & Hstarted1 & Hsp1).
  destruct (step_started o s1 s2 Hwf1 Hinit1 Hstarted1 Hstep) as [Hst2 Hsp2].
  destruct (step_prefix o s1 s2 Hwf1 Hinit1 Hstep) as [Hinit2 _].
  split; [by eapply step_wf|]. repeat split; [done..|congruence].
Qed.

(** No operation stops the supervisor: once a reachable state has
    [g_vm_thread_started] set, every later state has it set, still counts
    one thread, and [hako_run] returns 0 there without changing
    anything. *)
Theorem supervisor_is_never_stopped s s' :
  reachable s -> Loader.g_vm_thread_started s = true -> steps s s' ->
  Loader.g_vm_thread_started s' = true /\
  Loader.spawned s' = 1 /\
  Loader.hako_run s' = Some (0%Z, s').
Proof.
  intros Hreach Hstarted Hsteps.
  destruct (reachable_thread_accounting s Hreach) as [Hcount Hinit].
  rewrite Hstarted in Hcount. specialize (Hinit Hstarted).
  destruct (steps_started s s' (reachable_wf s Hreach) Hinit Hstarted Hsteps)
    as (_ & Hinit' & Hstarted' & Hsp).
  split; [done|]. split; [congruence|].
  unfold Loader.hako_run, Loader.hako_start_vm_thread.
  by rewrite Hinit', Hstarted'.
Qed.

(** *** [hako_load_bytecode] and the shared VM *)

(** The three outcomes of [hako_load_bytecode].  [-EINVAL] before
    [hako_init] or for a null bytecode, the engine not being called;
    [-ENOMEM] when the engine creates no task, [g_vm] staying as it is; 0
    when the task is created: it gets the name, if one is given, and
    becomes the shared VM if there was none.  The registry, the life-cycle
    flags and the thread count never change. *)
Theorem load_bytecode_outcomes nm bc s :
  let r := (Loader.hako_load_bytecode nm bc s).1 in
  let s' := (Loader.hako_load_bytecode nm bc s).2 in
  let created := mrbc_create_task bc (Loader.vm s) in
  same_registry s s' /\
  Loader.g_vm_thread_started s' = Loader.g_vm_thread_started s /\
  Loader.spawned s' = Loader.spawned s /\
  ((r = (- EINVAL)%Z /\ (Loader.g_vm_initialized s = false \/ bc = NULL) /\
    Loader.vm s' = Loader.vm s /\ Loader.g_vm s' = Loader.g_vm s) \/
   (r = (- ENOMEM)%Z /\ Loader.g_vm_initialized s = true /\ bc <> NULL /\
    created.1 = NULL /\
    Loader.vm s' = created.2 /\ Loader.g_vm s' = Loader.g_vm s) \/
   (r = 0%Z /\ Loader.g_vm_initialized s = true /\ bc <> NULL /\
    created.1 <> NULL /\
    Loader.vm s' = match nm with
                   | Some n => mrbc_set_task_name created.1 n created.2
                   | None => created.2
                   end /\
    Loader.g_vm s' =
      if N.eqb (Loader.g_vm s) NULL then created.1 else Loader.g_vm s)).
Proof.
  unfold Loader.hako_load_bytecode.
  destruct (Loader.g_vm_initialized s) eqn:Hinit; simpl negb; cbv iota.
  2:{ simpl. repeat split; try done. left. repeat split; by left. }
  destruct (N.eqb_spec bc NULL) as [Hnull|Hbc].
  { simpl. repeat split; try done. left. repeat split; by right. }
  unfold Loader.hako_load_bytecode_locked.
  destruct (mrbc_create_task bc (Loader.vm s)) as [tcb m1]. simpl.
  destruct (N.eqb_spec tcb NULL) as [Htcb|Htcb]; simpl.
  { repeat split; try done. right. left. by repeat split. }
  destruct (N.eqb_spec (Loader.g_vm s) NULL) as [Hvm|Hvm]; simpl;
    (repeat split; try done; right; right; by repeat split).
Qed.

Lemma hako_init_g_vm s : Loader.g_vm (Loader.hako_init s).2 = Loader.g_vm s.
Proof.
  unfold Loader.hako_init, Loader.hako_register_core_methods.
  destruct (Loader.g_vm_initialized s); [done|].
  destruct (Loader.g_core_methods_registered _); [done|].
  pose proof (register_methods_frame Loader.method_table
                (Loader.with_vm (mrbc_init (Loader.vm s)) s)) as Hframe.
  cbv zeta in Hframe.
  set (s1 := Loader.register_methods Loader.method_table _) in *.
  clearbody s1. by destruct Hframe as (_ & -> & _).
Qed.

Lemma load_bytecode_locked_g_vm nm bc s :
  Loader.g_vm s <> NULL ->
  Loader.g_vm (Loader.hako_load_bytecode_locked nm bc s).2 = Loader.g_vm s.
Proof.
  intros Hvm. unfold Loader.hako_load_bytecode_locked.
  destruct (mrbc_create_task bc (Loader.vm s)) as [tcb m1].
  destruct (N.eqb tcb NULL); simpl; [done|].
  by rewrite (proj2 (N.eqb_neq _ _) Hvm).
Qed.

Lemma step_g_vm o s s' :
  wf s -> Loader.g_vm s <> NULL -> step o s = Some s' ->
  Loader.g_vm s' = Loader.g_vm s.
Proof.
  intros Hwf Hvm. destruct o as [|registry count|nm bc| |nm]; simpl.
  - intros [= <-]. apply hako_init_g_vm.
  - destruct (Loader.hako_load_registry registry count s) as [[r s1]|] eqn:Hload;
      intros [= <-].
    by apply load_registry_runtime in Hload as (_ & -> & _).
  - intros [= <-]. unfold Loader.hako_load_bytecode.
    destruct (negb (Loader.g_vm_initialized s)); [done|].
    destruct (N.eqb bc NULL); [done|].
    by apply load_bytecode_locked_g_vm.
  - unfold Loader.hako_run, Loader.hako_start_vm_thread.
    destruct (negb (Loader.g_vm_initialized s)); [by intros [= <-]|].
    destruct (Loader.g_vm_thread_started s); [by intros [= <-]|].
    destruct (Loader.hako_find_bytecode_locked (Some "main"%string) s)
      as [[b s0]|] eqn:Hfind; [|done].
    apply (find_bytecode_frame (Some "main"%string)) in Hfind
      as [_ (_ & Hvm0 & _)].
    destruct (N.eqb b NULL); [intros [= <-]; by simpl|].
    pose proof (load_bytecode_locked_g_vm (Some "main"%string) b s0) as Hkeep.
    rewrite Hvm0 in Hkeep. specialize (Hkeep Hvm).
    destruct (Loader.hako_load_bytecode_locked _ b s0) as [ret s2].
    simpl in Hkeep. destruct (Z.ltb ret 0); intros [= <-]; simpl; congruence.
  - destruct (Loader.hako_find_bytecode nm s) as [[b s1]|] eqn:Hfind;
      intros [= <-].
    by apply find_bytecode_frame in Hfind as [_ (_ & -> & _)].
Qed.

(** The shared VM is set once: when [g_vm] is not null in a reachable
    state, [hako_get_vm] returns that same VM in every later state. *)
Theorem shared_vm_is_kept s s' :
  reachable s -> Loader.g_vm s <> NULL -> steps s s' ->
  Loader.hako_get_vm s' = Loader.g_vm s.
Proof.
  intros Hreach Hvm Hsteps. unfold Loader.hako_get_vm.
  pose proof (reachable_wf s Hreach) as Hwf.
  induction Hsteps as [|o s1 s2 Hsteps IH Hstep]; [done|].
  rewrite <- IH. apply (step_g_vm o s1 s2); [|congruence|done].
  by eapply steps_wf.
Qed.

(** *** [hako_run] with "main" registered, and "main" registered late *)

(** On an initialised runtime whose supervisor is not running, when
    "main" is registered and the engine creates its task, [hako_run]
    returns 0: the task is named "main", it becomes the shared VM if there
    was none, one thread is created and [g_vm_thread_started] is set; the
    registry is unchanged. *)
Theorem run_loads_main s bc tcb m1 :
  Loader.g_vm_initialized s = true ->
  Loader.g_vm_thread_started s = false ->
  find (Some "main"%string) s = Some bc -> bc <> NULL ->
  mrbc_create_task bc (Loader.vm s) = (tcb, m1) -> tcb <> NULL ->
  exists s',
    Loader.hako_run s = Some (0%Z, s') /\
    Loader.g_vm_thread_started s' = true /\
    Loader.spawned s' = S (Loader.spawned s) /\
    Loader.vm s' = mrbc_set_task_name tcb "main" m1 /\
    Loader.g_vm s' = (if N.eqb (Loader.g_vm s) NULL then tcb else Loader.g_vm s) /\
    same_registry s s'.
Proof.
  intros Hinit Hstarted Hmain Hbc Hok Htcb.
  unfold Loader.hako_run, Loader.hako_start_vm_thread.
  rewrite Hinit, Hstarted. simpl negb. cbv iota.
  rewrite (find_found _ _ _ Hmain Hbc), (proj2 (N.eqb_neq bc NULL) Hbc).
  unfold Loader.hako_load_bytecode_locked. simpl Loader.vm.
  rewrite Hok, (proj2 (N.eqb_neq tcb NULL) Htcb).
  change (0 <? 0)%Z with false. cbv iota. simpl Loader.g_vm.
  destruct (N.eqb (Loader.g_vm s) NULL);
    (eexists; split; [reflexivity|]; by repeat split).
Qed.

(** A "main" registered after the supervisor has started is never loaded
    by [hako_run]: after a first [hako_run] without "main" and any
    registration, [hako_run] returns 0 and changes nothing, and the three
    calls together have left the engine as it was. *)
Theorem late_main_is_not_loaded s tbl count :
  wf s -> Loader.g_vm_initialized s = true ->
  Loader.g_vm_thread_started s = false ->
  find (Some "main"%string) s = Some NULL ->
  count <= length tbl ->
  exists s1 r s2,
    Loader.hako_run s = Some (0%Z, s1) /\
    Loader.hako_load_registry (Some tbl) count s1 = Some (r, s2) /\
    Loader.hako_run s2 = Some (0%Z, s2) /\
    Loader.vm s2 = Loader.vm s.
Proof.
  intros Hwf Hinit Hstarted Hmain Hlen.
  assert (Hrun : exists s1, Loader.hako_run s = Some (0%Z, s1) /\
                            Loader.vm s1 = Loader.vm s).
  { unfold Loader.hako_run, Loader.hako_start_vm_thread.
    rewrite Hinit, Hstarted. simpl negb. cbv iota.
    destruct (find_missing _ _ Hmain) as [dbg ->]. simpl.
    by eexists. }
  destruct Hrun as (s1 & Hrun & Hvm1).
  destruct (start_spawns_once s 0%Z s1 Hinit Hstarted Hrun)
    as (Hinit1 & Hstarted1 & _); [lia|].
  assert (Hwf1 : wf s1) by (eapply same_registry_wf; [by eapply run_frame|done]).
  destruct (load_registry_total tbl count s1 Hlen) as [[r s2] Hload].
  pose proof (load_registry_runtime _ _ _ _ _ Hwf1 Hload)
    as (Hinit2 & _ & Hstarted2 & _ & Hvm2 & _).
  exists s1, r, s2. split; [done|]. split; [done|]. split; [|congruence].
  unfold Loader.hako_run, Loader.hako_start_vm_thread.
  by rewrite Hinit2, Hinit1, Hstarted2, Hstarted1.
Qed.

(** *** The walk of the extension section *)

Lemma init_loop_effect exts i s :
  Forall (fun ext => is_Some (init ext)) exts ->
  exists s',
    Loader.init_loop exts i s = Some s' /\
    Loader.ext_invoked s' = Loader.ext_invoked s ++ seq i (length exts) /\
    Loader.vm s' = foldl (fun m f => call_init f m) (Loader.vm s)
                         (omap init exts) /\
    same_registry s s' /\
    Loader.g_vm s' = Loader.g_vm s /\
    Loader.g_vm_thread_started s' = Loader.g_vm_thread_started s /\
    Loader.spawned s' = Loader.spawned s.
Proof.
  intros Hall. revert i s.
  induction Hall as [|ext rest [f Hf] _ IH]; intros i s; simpl.
  - exists s. rewrite app_nil_r. by repeat split.
  - rewrite Hf.
    destruct (IH (S i)
                (Loader.invoke i f
                   (Loader.klog LOG_DBG
                      "Initializing extension: %s (priority %d)" s)))
      as (s' & -> & Htrace & Hvm & Hreg & Hgvm & Hst & Hsp).
    exists s'. split; [done|].
    split; [rewrite Htrace; simpl; by rewrite <- app_assoc|].
    split; [exact Hvm|].
    destruct Hreg as (Hr1 & Hr2 & Hr3). by repeat split.
Qed.

(** For every section without a null [init] pointer (the empty section
    included), [hako_init_extensions] of the threaded loader returns; it
    has called the callbacks of all entries, once each, in the order of
    the section whatever their priorities, the engine being the one
    these calls leave in that order; no global of the loader has
    changed. *)
Theorem section_order_walk section s :
  Forall (fun ext => is_Some (init ext)) section ->
  exists s',
    Loader.hako_init_extensions section s = Some s' /\
    Loader.ext_invoked s' = Loader.ext_invoked s ++ seq 0 (length section) /\
    Loader.vm s' = foldl (fun m f => call_init f m) (Loader.vm s)
                         (omap init section) /\
    same_registry s s' /\
    Loader.g_vm s' = Loader.g_vm s /\
    Loader.g_vm_thread_started s' = Loader.g_vm_thread_started s /\
    Loader.spawned s' = Loader.spawned s.
Proof.
  intros Hall. unfold Loader.hako_init_extensions.
  destruct (init_loop_effect section 0
              (Loader.klog LOG_INF "Found %zu extension(s)"
                 (Loader.klog LOG_INF "Discovering HAKO extensions..." s))
              Hall) as (s' & -> & Htrace & Hvm & Hreg & Hgvm & Hst & Hsp).
  eexists. split; [reflexivity|].
  destruct Hreg as (Hr1 & Hr2 & Hr3). by repeat split.
Qed.

(** *** The first [hako_init] *)

(** The first [hako_init] of the threaded loader cannot fail: on a
    runtime that is not initialised it returns 0, sets
    [g_vm_initialized] and [g_core_methods_registered], clears the
    supervisor flag and resets the module count to 0; it leaves the slots
    of the table, [g_vm] and the thread count as they are, and calls no
    extension callback. *)
Theorem first_init_postcondition s :
  Loader.g_vm_initialized s = false ->
  let s' := (Loader.hako_init s).2 in
  (Loader.hako_init s).1 = 0%Z /\
  Loader.g_vm_initialized s' = true /\
  Loader.g_core_methods_registered s' = true /\
  Loader.g_vm_thread_started s' = false /\
  Loader.g_bytecode_count s' = 0 /\
  Loader.g_bytecode_registry s' = Loader.g_bytecode_registry s /\
  Loader.g_vm s' = Loader.g_vm s /\
  Loader.spawned s' = Loader.spawned s /\
  Loader.ext_invoked s' = Loader.ext_invoked s.
Proof.
  intros Hinit.
  destruct (hako_init_first s Hinit) as (Hr & Hi & Hc & Hreg & Hst & Hsp & Hext).
  pose proof (hako_init_g_vm s) as Hvm.
  repeat split; try done.
  unfold Loader.hako_init, Loader.hako_register_core_methods.
  rewrite Hinit.
  destruct (Loader.g_core_methods_registered
              (Loader.with_vm (mrbc_init (Loader.vm s)) s)) eqn:Hcore;
    [exact Hcore | reflexivity].
Qed.

(** *** What loading a module and walking the section do not do *)

(** Loading a module as a task does not register it: whatever its
    outcome, [hako_load_bytecode] leaves every lookup as it was. *)
Theorem loaded_module_is_not_registered nm bc s nm' :
  find nm' (Loader.hako_load_bytecode nm bc s).2 = find nm' s.
Proof. apply find_same_registry, load_bytecode_frame. Qed.

Lemma init_extensions_effect section s :
  Forall (fun ext => is_Some (init ext)) section ->
  exists s',
    Loader.hako_init_extensions section s = Some s' /\
    Loader.ext_invoked s' = Loader.ext_invoked s ++ seq 0 (length section) /\
    Loader.vm s' = foldl (fun m f => call_init f m) (Loader.vm s)
                         (omap init section).
Proof.
  intros Hall. unfold Loader.hako_init_extensions.
  destruct (init_loop_effect section 0
              (Loader.klog LOG_INF "Found %zu extension(s)"
                 (Loader.klog LOG_INF "Discovering HAKO extensions..." s))
              Hall) as (s' & -> & Htrace & Hvm & _).
  eexists. split; [reflexivity|]. by split.
Qed.

(** The walk is not guarded against a second call: on a section without a
    null [init] pointer, two calls of [hako_init_extensions] in a row call
    the callback of every entry twice, the whole section in order and then
    the whole section in order again. *)
Theorem walk_is_not_guarded section s :
  Forall (fun ext => is_Some (init ext)) section ->
  exists s1 s2,
    Loader.hako_init_extensions section s = Some s1 /\
    Loader.hako_init_extensions section s1 = Some s2 /\
    Loader.ext_invoked s2 =
      Loader.ext_invoked s ++ seq 0 (length section) ++ seq 0 (length section) /\
    Loader.vm s2 =
      foldl (fun m f => call_init f m) (Loader.vm s)
            (omap init section ++ omap init section).
Proof.
  intros Hall.
  destruct (init_extensions_effect section s Hall)
    as (s1 & Hwalk1 & Htrace1 & Hvm1).
  destruct (init_extensions_effect section s1 Hall)
    as (s2 & Hwalk2 & Htrace2 & Hvm2).
  exists s1, s2. split; [done|]. split; [done|]. split.
  - by rewrite Htrace2, Htrace1, <- app_assoc.
  - by rewrite Hvm2, Hvm1, foldl_app.
Qed.

End More.

(** ** Further properties of the original loader *)

Section OriginalMore.
Context `{VmRunner}.

(** *** [hako_init] *)

(** When the engine opens no VM, [hako_init] of the original loader
    returns [-ENOMEM] before the extension section is looked at: the
    runtime stays uninitialised with a null [g_vm], the registry and its
    count are untouched, no callback is called, and [hako_load_registry]
    and [hako_run] still answer [-EINVAL]. *)
Theorem original_init_out_of_memory fuel section s m' :
  Original.g_vm_initialized s = false ->
  mrbc_vm_open
    (mrbc_init_class (mrbc_init_global (mrbc_init_alloc (Original.vm s)))) =
    (NULL, m') ->
  exists s',
    Original.hako_init fuel section s = Original.Returned ((- ENOMEM)%Z, s') /\
    Original.g_vm_initialized s' = false /\
    Original.g_vm s' = NULL /\
    Original.g_bytecode_registry s' = Original.g_bytecode_registry s /\
    Original.g_bytecode_count s' = Original.g_bytecode_count s /\
    Original.ext_invoked s' = Original.ext_invoked s /\
    Original.vm s' = m' /\
    (forall registry count,
       exists msg,
         Blocking.hako_load_registry registry count s' =
         Some ((- EINVAL)%Z, Original.klog LOG_ERR msg s')) /\
    (exists msg,
       Blocking.hako_run s' =
       Original.Returned ((- EINVAL)%Z, Original.klog LOG_ERR msg s')).
Proof.
  intros Hinit Hopen. unfold Original.hako_init. rewrite Hinit, Hopen.
  simpl. eexists. split; [reflexivity|]. simpl.
  repeat split; try done.
  - intros registry count. unfold Blocking.hako_load_registry. simpl.
    by eexists.
  - unfold Blocking.hako_run. simpl. by eexists.
Qed.

Lemma init_pass_frame prio exts i s :
  let s' := Original.init_pass prio exts i s in
  Original.g_vm_initialized s' = Original.g_vm_initialized s /\
  Original.g_bytecode_registry s' = Original.g_bytecode_registry s /\
  Original.g_bytecode_count s' = Original.g_bytecode_count s /\
  Original.g_vm s' = Original.g_vm s.
Proof.
  revert i s. induction exts as [|ext rest IH]; intros i s; simpl; [done|].
  destruct (Z.eqb (priority ext) prio); [|apply IH].
  destruct (init ext) as [f|]; [|apply IH].
  match goal with |- context [Original.init_pass prio rest (S i) ?t] =>
    specialize (IH (S i) t) end.
  simpl in IH. exact IH.
Qed.

Lemma priority_loop_frame fuel section prio s s' :
  Original.priority_loop fuel section prio s = Original.Looping s' \/
  Original.priority_loop fuel section prio s = Original.Returned s' ->
  Original.g_vm_initialized s' = Original.g_vm_initialized s /\
  Original.g_bytecode_registry s' = Original.g_bytecode_registry s /\
  Original.g_bytecode_count s' = Original.g_bytecode_count s /\
  Original.g_vm s' = Original.g_vm s.
Proof.
  revert prio s. induction fuel as [|fuel IH]; intros prio s; simpl.
  - intros [[= <-]|[=]]. done.
  - destruct (Z.leb prio 255).
    + intros Hres. apply IH in Hres as (-> & -> & -> & ->).
      apply init_pass_frame.
    + intros [[=]|[= <-]]. done.
Qed.

Lemma original_init_empty_section fuel s v m' :
  Original.g_vm_initialized s = false ->
  mrbc_vm_open
    (mrbc_init_class (mrbc_init_global (mrbc_init_alloc (Original.vm s)))) =
    (v, m') ->
  v <> NULL ->
  exists s',
    Original.hako_init fuel [] s = Original.Returned (0%Z, s') /\
    Original.g_vm_initialized s' = true /\
    Original.g_bytecode_count s' = 0 /\
    Original.g_bytecode_registry s' = Original.g_bytecode_registry s.
Proof.
  intros Hinit Hopen Hv. unfold Original.hako_init. rewrite Hinit, Hopen.
  rewrite (proj2 (N.eqb_neq v NULL) Hv). simpl.
  eexists. split; [reflexivity|]. by repeat split.
Qed.

(** With a VM opened, [hako_init] of the original loader returns only for
    an empty extension section: it then returns 0 with the runtime
    initialised, the module count 0, [g_vm] the VM opened and no callback
    called.  For a section that is not empty it does not return, whatever
    the number of iterations allowed; the runtime is marked initialised
    all the same. *)
Theorem original_init_returns_only_for_empty_section fuel section s v m' :
  Original.g_vm_initialized s = false ->
  mrbc_vm_open
    (mrbc_init_class (mrbc_init_global (mrbc_init_alloc (Original.vm s)))) =
    (v, m') ->
  v <> NULL ->
  (section = [] ->
   exists s',
     Original.hako_init fuel section s = Original.Returned (0%Z, s') /\
     Original.g_vm_initialized s' = true /\
     Original.g_bytecode_count s' = 0 /\
     Original.g_bytecode_registry s' = Original.g_bytecode_registry s /\
     Original.g_vm s' = v /\
     Original.vm s' = m' /\
     Original.ext_invoked s' = Original.ext_invoked s) /\
  (section <> [] ->
   exists s',
     Original.hako_init fuel section s = Original.Looping s' /\
     Original.g_vm_initialized s' = true /\
     Original.g_bytecode_count s' = 0 /\
     Original.g_vm s' = v).
Proof.
  intros Hinit Hopen Hv. unfold Original.hako_init. rewrite Hinit, Hopen.
  rewrite (proj2 (N.eqb_neq v NULL) Hv). split.
  - intros ->. simpl. eexists. split; [reflexivity|]. by repeat split.
  - intros Hne.
    match goal with |- context [Original.hako_init_extensions fuel section ?t] =>
      set (s2 := t) end.
    destruct (original_init_extensions_never_returns fuel section s2 Hne)
      as [s' Hloop].
    rewrite Hloop. exists s'. split; [done|].
    unfold Original.hako_init_extensions in Hloop.
    rewrite count_extensions_length in Hloop.
    destruct section as [|ext rest]; [done|]. simpl Nat.eqb in Hloop.
    cbv iota in Hloop.
    destruct (Original.priority_loop fuel (ext :: rest) 0 _) as [s3|s3] eqn:Hp;
      [done|].
    injection Hloop as <-.
    assert (Hframe := priority_loop_frame _ _ _ _ _ (or_introl Hp)).
    destruct Hframe as (-> & _ & -> & ->). done.
Qed.

(** *** The registry of the two loaders *)

Lemma registry_loop_agrees tbl count o t :
  registry_agrees o t ->
  match Blocking.registry_loop tbl count o, Loader.registry_loop tbl count t with
  | Some (fo, o'), Some (ft, t') => fo = ft /\ registry_agrees o' t'
  | None, None => True
  | _, _ => False
  end.
Proof.
  revert tbl o t. induction count as [|count IH]; intros tbl o t Hagree; simpl.
  - done.
  - destruct tbl as [|e tbl]; [done|].
    destruct (name e) as [nm|]; [|done].
    destruct (N.eqb (bytecode e) NULL).
    + apply IH. exact Hagree.
    + destruct Hagree as (Hreg & Hcnt & Hinit). rewrite Hcnt.
      destruct (Loader.g_bytecode_count t <? MAX_BYTECODE_MODULES).
      * apply IH. split; [|split]; simpl; congruence.
      * by repeat split.
Qed.

Lemma load_registry_agrees registry count o t :
  registry_agrees o t ->
  match Blocking.hako_load_registry registry count o,
        Loader.hako_load_registry registry count t with
  | Some (ro, o'), Some (rt, t') => ro = rt /\ registry_agrees o' t'
  | None, None => True
  | _, _ => False
  end.
Proof.
  intros Hagree.
  unfold Blocking.hako_load_registry, Loader.hako_load_registry.
  destruct Hagree as (Hreg & Hcnt & Hinit). rewrite Hinit.
  destruct (Loader.g_vm_initialized t) eqn:Hi; simpl;
    [|repeat split; simpl; congruence].
  destruct registry as [tbl|]; [|repeat split; simpl; congruence].
  assert (Hk : registry_agrees
                 (Original.klog LOG_INF "Loading bytecode registry: %zu modules" o)
                 (Loader.klog LOG_INF "Loading bytecode registry: %zu modules" t))
    by (repeat split; simpl; congruence).
  pose proof (registry_loop_agrees tbl count _ _ Hk) as Hloop.
  destruct (Blocking.registry_loop tbl count _) as [[fo o']|];
    destruct (Loader.registry_loop tbl count _) as [[ft t']|];
    try (by destruct Hloop).
  destruct Hloop as [<- (Hreg' & Hcnt' & Hinit')].
  destruct fo; repeat split; simpl; congruence.
Qed.

Lemma find_bytecode_agrees nm o t :
  registry_agrees o t ->
  match Blocking.hako_find_bytecode nm o, Loader.hako_find_bytecode nm t with
  | Some (bo, o'), Some (bt, t') => bo = bt /\ registry_agrees o' t'
  | None, None => True
  | _, _ => False
  end.
Proof.
  intros Hagree.
  unfold Blocking.hako_find_bytecode, Loader.hako_find_bytecode,
    Loader.hako_find_bytecode_locked.
  destruct nm as [n|]; [|done].
  destruct Hagree as (Hreg & Hcnt & Hinit). rewrite Hreg, Hcnt.
  destruct (Loader.find_loop _ _ n) as [[bc|]|];
    try done; repeat split; simpl; congruence.
Qed.

(** The threaded loader kept the registry behaviour of the original one:
    on states that hold the same table, count and initialised flag,
    [hako_load_registry] of both return the same code and leave the same
    table, count and flag (or both read past the caller's table), and
    [hako_find_bytecode] of both return the same bytecode. *)
Theorem loaders_share_registry_behaviour o t :
  registry_agrees o t ->
  (forall registry count,
     match Blocking.hako_load_registry registry count o,
           Loader.hako_load_registry registry count t with
     | Some (ro, o'), Some (rt, t') => ro = rt /\ registry_agrees o' t'
     | None, None => True
     | _, _ => False
     end) /\
  (forall nm,
     match Blocking.hako_find_bytecode nm o, Loader.hako_find_bytecode nm t with
     | Some (bo, o'), Some (bt, t') => bo = bt /\ registry_agrees o' t'
     | None, None => True
     | _, _ => False
     end).
Proof.
  intros Hagree. split.
  - intros registry count. by apply load_registry_agrees.
  - intros nm. by apply find_bytecode_agrees.
Qed.

Lemma original_find_transfer nm o t :
  registry_agrees o t ->
  fst <$> Blocking.hako_find_bytecode nm o = find nm t.
Proof.
  intros Hagree. unfold find.
  pose proof (find_bytecode_agrees nm o t Hagree) as Hfind.
  destruct (Blocking.hako_find_bytecode nm o) as [[bo o']|];
    destruct (Loader.hako_find_bytecode nm t) as [[bt t']|]; try done.
  simpl. by destruct Hfind as [-> _].
Qed.

(** Registry round trip of the original loader: after a [hako_init] that
    returns (empty extension section, VM opened), registering a batch of
    at most 32 entries with a name and a bytecode, the names pairwise
    distinct, returns 0; a lookup then returns, for each name of the
    batch, the bytecode registered with it, and [NULL] for any other
    name. *)
Theorem original_round_trip fuel s v m' entries rest :
  length (Original.g_bytecode_registry s) = MAX_BYTECODE_MODULES ->
  Original.g_vm_initialized s = false ->
  mrbc_vm_open
    (mrbc_init_class (mrbc_init_global (mrbc_init_alloc (Original.vm s)))) =
    (v, m') ->
  v <> NULL ->
  Forall valid_entry entries ->
  NoDup (name <$> entries) ->
  length entries <= MAX_BYTECODE_MODULES ->
  exists s1 s2,
    Original.hako_init fuel [] s = Original.Returned (0%Z, s1) /\
    Blocking.hako_load_registry (Some (entries ++ rest)) (length entries) s1 =
      Some (0%Z, s2) /\
    (forall e, e ∈ entries ->
       fst <$> Blocking.hako_find_bytecode (name e) s2 = Some (bytecode e)) /\
    (forall nm, Some nm ∉ name <$> entries ->
       fst <$> Blocking.hako_find_bytecode (Some nm) s2 = Some NULL).
Proof.
  intros Hlen Hinit Hopen Hv Hvalid Hnodup Hcap.
  destruct (original_init_empty_section
              fuel s v m' Hinit Hopen Hv)
    as (s1 & Hrun & Hinit1 & Hcount1 & Hreg1).
  set (t := Loader.Build (Original.g_bytecode_registry s1) 0 true NULL false
                         false (Original.vm s1) 0 [] []).
  assert (Hagree : registry_agrees s1 t).
  { unfold registry_agrees, t. simpl. by rewrite Hcount1, Hinit1. }
  assert (Hwf : wf t).
  { unfold wf, active, t. simpl. rewrite Hreg1.
    split; [done|]. split; [lia | constructor]. }
  destruct (load_into_empty t entries rest Hwf eq_refl eq_refl Hvalid)
    as (t' & Hload & Hwf' & Hact).
  rewrite decide_True in Hload by done. rewrite take_ge in Hact by done.
  pose proof (load_registry_agrees (Some (entries ++ rest)) (length entries)
                s1 t Hagree) as Hboth.
  rewrite Hload in Hboth.
  destruct (Blocking.hako_load_registry _ _ s1) as [[r s2]|] eqn:Hload1;
    [|done].
  destruct Hboth as [-> Hagree'].
  exists s1, s2. split; [done|]. split; [done|]. split.
  - intros e Hin. rewrite (original_find_transfer _ _ _ Hagree').
    destruct (proj1 (Forall_forall _ _) Hvalid e Hin) as [[nm Hname] _].
    rewrite Hname, find_spec, Hact by done.
    f_equal. by apply first_match_nodup.
  - intros nm Hnot. rewrite (original_find_transfer _ _ _ Hagree').
    rewrite find_spec, Hact by done. f_equal. by apply first_match_absent.
Qed.

(** *** [hako_load_bytecode] and [hako_run] *)

(** The three outcomes of [hako_load_bytecode] of the original loader:
    [-EINVAL] when the runtime is not initialised, has no VM or the
    bytecode is null, the engine not being called; [-EIO] when
    [mrbc_load_mrb] does not return 0; 0 otherwise.  No global of the
    loader changes. *)
Theorem original_load_bytecode_outcomes nm bc s :
  let r := (Blocking.hako_load_bytecode nm bc s).1 in
  let s' := (Blocking.hako_load_bytecode nm bc s).2 in
  let loaded := mrbc_load_mrb (Original.g_vm s) bc (Original.vm s) in
  Original.g_bytecode_registry s' = Original.g_bytecode_registry s /\
  Original.g_bytecode_count s' = Original.g_bytecode_count s /\
  Original.g_vm_initialized s' = Original.g_vm_initialized s /\
  Original.g_vm s' = Original.g_vm s /\
  ((r = (- EINVAL)%Z /\
    (Original.g_vm_initialized s = false \/ Original.g_vm s = NULL \/ bc = NULL) /\
    Original.vm s' = Original.vm s) \/
   (r = (- EIO)%Z /\ Original.g_vm_initialized s = true /\
    Original.g_vm s <> NULL /\ bc <> NULL /\ loaded.1 <> 0%Z /\
    Original.vm s' = loaded.2) \/
   (r = 0%Z /\ Original.g_vm_initialized s = true /\
    Original.g_vm s <> NULL /\ bc <> NULL /\ loaded.1 = 0%Z /\
    Original.vm s' = loaded.2)).
Proof.
  unfold Blocking.hako_load_bytecode.
  destruct (Original.g_vm_initialized s) eqn:Hinit; simpl negb; simpl orb.
  2:{ simpl. repeat split; try done. left. repeat split. by left. }
  destruct (N.eqb_spec (Original.g_vm s) NULL) as [Hvm|Hvm].
  { simpl. repeat split; try done. left. repeat split. right. by left. }
  destruct (N.eqb_spec bc NULL) as [Hbc|Hbc].
  { simpl. repeat split; try done. left. repeat split. right. by right. }
  destruct (mrbc_load_mrb (Original.g_vm s) bc (Original.vm s)) as [rc m].
  destruct (Z.eqb_spec rc 0) as [Hrc|Hrc]; simpl.
  - repeat split; try done. right. right. by repeat split.
  - repeat split; try done. right. left. by repeat split.
Qed.

(** [hako_run] of the original loader: [-EINVAL] when the runtime is not
    initialised or has no VM, the engine not being called; otherwise the
    VM is begun, run and ended, and when the run returns the call returns
    0 whatever the run returned; when the run does not return, neither
    does the call.  No global of the loader changes. *)
Theorem original_run_outcomes s :
  let m1 := mrbc_vm_begin (Original.g_vm s) (Original.vm s) in
  match Blocking.hako_run s with
  | Original.Returned (r, s') =>
      Original.g_bytecode_registry s' = Original.g_bytecode_registry s /\
      Original.g_bytecode_count s' = Original.g_bytecode_count s /\
      Original.g_vm_initialized s' = Original.g_vm_initialized s /\
      Original.g_vm s' = Original.g_vm s /\
      ((r = (- EINVAL)%Z /\
        (Original.g_vm_initialized s = false \/ Original.g_vm s = NULL) /\
        Original.vm s' = Original.vm s) \/
       (r = 0%Z /\ Original.g_vm_initialized s = true /\
        Original.g_vm s <> NULL /\
        exists rc m2,
          mrbc_vm_run (Original.g_vm s) m1 = Some (rc, m2) /\
          Original.vm s' = mrbc_vm_end (Original.g_vm s) m2))
  | Original.Looping s' =>
      Original.g_vm_initialized s = true /\ Original.g_vm s <> NULL /\
      mrbc_vm_run (Original.g_vm s) m1 = None
  end.
Proof.
  unfold Blocking.hako_run.
  destruct (Original.g_vm_initialized s) eqn:Hinit; simpl negb; simpl orb.
  2:{ simpl. repeat split; try done. left. repeat split. by left. }
  destruct (N.eqb_spec (Original.g_vm s) NULL) as [Hvm|Hvm].
  { simpl. repeat split; try done. left. repeat split. by right. }
  simpl. destruct (mrbc_vm_run _ _) as [[rc m2]|] eqn:Hrun.
  - repeat split; try done. right. repeat split; try done. by exists rc, m2.
  - by repeat split.
Qed.

End OriginalMore.

(** ** Scenarios on the test double *)

#[local] Existing Instance Double.interpreter.

(** C2 (evaluation of the code).  The first [hako_init] of the threaded
    loader returns 0 and leaves the runtime initialised without any
    extension callback called: the list of walked entries is empty and the
    engine has seen no call.  [hako_init_extensions] itself, run on the
    state [hako_init] leaves, does call the callback of the repository's
    extension. *)
Theorem init_skips_extension_catalog :
  let s := Example.initialised 4 in
  (Loader.hako_init (Example.booted 4)).1 = 0%Z /\
  Loader.g_vm_initialized s = true /\
  Loader.spawned s = 0 /\
  Loader.ext_invoked s = [] /\
  Double.called (Loader.vm s) = [] /\
  exists s',
    Loader.hako_init_extensions [Example.zephyr_gpio] s = Some s' /\
    Loader.ext_invoked s' = [0] /\
    Double.called (Loader.vm s') = [1%N].
Proof.
  vm_compute. repeat (split; [reflexivity|]).
  eexists. split; [reflexivity|]. split; reflexivity.
Qed.

(** The original loader walks the catalog from within [hako_init]: the
    callback has been called when the priority loop has gone through the
    priorities once (and the loop goes on). *)
Lemma original_init_walks_catalog :
  exists s',
    @Original.hako_init Double.interpreter 256 [Example.zephyr_gpio]
      (Original.boot (Double.fresh 4)) = Original.Looping s' /\
    Original.g_vm_initialized s' = true /\
    Original.ext_invoked s' = [0] /\
    Double.called (Original.vm s') = [1%N].
Proof.
  eexists. split; [vm_compute; reflexivity|]. repeat split.
Qed.

(** The scenario of the design document: init, a registry with "main" and
    "utils", a lookup of "utils", a first run that loads "main" as a task
    and starts the supervisor, a second run that does neither. *)
Example concrete_scenario :
  (Loader.hako_init (Example.booted 4)).1 = 0%Z /\
  fst <$> Loader.hako_load_registry (Some Example.main_and_utils) 2
            (Example.initialised 4) = Some 0%Z /\
  find (Some "utils") (Example.loaded 4) = Some 12%N /\
  fst <$> Loader.hako_run (Example.loaded 4) = Some 0%Z /\
  Double.tasks (Loader.vm (Example.running 4)) = [(11%N, Some "main")] /\
  Loader.spawned (Example.running 4) = 1 /\
  Loader.hako_run (Example.running 4) = Some (0%Z, Example.running 4).
Proof. vm_compute. repeat split. Qed.

(** ** The properties at concrete inputs *)

Lemma wf_initialised n : wf (Example.initialised n).
Proof.
  apply hako_init_fresh; [apply length_replicate | reflexivity].
Qed.

Lemma reachable_initialised n : reachable (Example.initialised n).
Proof.
  exists (Double.fresh n).
  apply (steps_step _ Init (Example.booted n)); [constructor | done].
Qed.

Lemma registry_round_trip_witness :
  length (Loader.g_bytecode_registry (Example.booted 4)) = MAX_BYTECODE_MODULES /\
  Loader.g_vm_initialized (Example.booted 4) = false /\
  Forall valid_entry (Example.batch 3) /\
  NoDup (name <$> Example.batch 3) /\
  length (Example.batch 3) <= MAX_BYTECODE_MODULES /\
  exists s',
    Loader.hako_load_registry (Some (Example.batch 3 ++ [empty_slot]))
      (length (Example.batch 3)) (Loader.hako_init (Example.booted 4)).2 =
      Some (0%Z, s') /\
    (forall e, e ∈ Example.batch 3 -> find (name e) s' = Some (bytecode e)) /\
    (forall nm, Some nm ∉ name <$> Example.batch 3 ->
       find (Some nm) s' = Some NULL).
Proof.
  assert (H1 : length (Loader.g_bytecode_registry (Example.booted 4))
               = MAX_BYTECODE_MODULES) by evaluate.
  assert (H2 : Loader.g_vm_initialized (Example.booted 4) = false) by evaluate.
  assert (H3 : Forall valid_entry (Example.batch 3)) by evaluate.
  assert (H4 : NoDup (name <$> Example.batch 3)) by evaluate.
  assert (H5 : length (Example.batch 3) <= MAX_BYTECODE_MODULES) by evaluate.
  exact (conj H1 (conj H2 (conj H3 (conj H4 (conj H5
           (registry_round_trip (Example.booted 4) (Example.batch 3)
              [empty_slot] H1 H2 H3 H4 H5)))))).
Defined.

Lemma capacity_boundary_witness :
  length (Loader.g_bytecode_registry (Example.booted 4)) = MAX_BYTECODE_MODULES /\
  Loader.g_vm_initialized (Example.booted 4) = false /\
  Forall valid_entry (Example.batch 33) /\
  length (Example.batch 33) = S MAX_BYTECODE_MODULES /\
  exists s',
    Loader.hako_load_registry (Some (Example.batch 33 ++ []))
      (S MAX_BYTECODE_MODULES) (Loader.hako_init (Example.booted 4)).2 =
      Some ((- ENOMEM)%Z, s') /\
    Loader.g_bytecode_count s' = MAX_BYTECODE_MODULES /\
    active s' = take MAX_BYTECODE_MODULES (Example.batch 33).
Proof.
  assert (H1 : length (Loader.g_bytecode_registry (Example.booted 4))
               = MAX_BYTECODE_MODULES) by evaluate.
  assert (H2 : Loader.g_vm_initialized (Example.booted 4) = false) by evaluate.
  assert (H3 : Forall valid_entry (Example.batch 33)) by evaluate.
  assert (H4 : length (Example.batch 33) = S MAX_BYTECODE_MODULES) by evaluate.
  repeat (split; [assumption|]).
  destruct (capacity_boundary (Example.booted 4) (Example.batch 33) []
              H1 H2 H3 H4) as (s' & Hload & Hcount & Hact & _).
  exists s'. exact (conj Hload (conj Hcount Hact)).
Defined.

Lemma duplicate_names_witness :
  let s := Example.initialised 4 in
  wf s /\ Loader.g_vm_initialized s = true /\
  Loader.g_bytecode_count s + 2 <= MAX_BYTECODE_MODULES /\
  find (Some "dup") s = Some NULL /\ 7%N <> NULL /\ 8%N <> NULL /\
  exists s',
    Loader.hako_load_registry
      (Some [BytecodeEntry (Some "dup") 7%N; BytecodeEntry (Some "dup") 8%N])
      2 s = Some (0%Z, s') /\
    active s' =
      active s ++ [BytecodeEntry (Some "dup") 7%N; BytecodeEntry (Some "dup") 8%N] /\
    forall s'', steps s' s'' -> find (Some "dup") s'' = Some 7%N.
Proof.
  intros s.
  assert (H1 : wf s) by apply wf_initialised.
  assert (H2 : Loader.g_vm_initialized s = true) by evaluate.
  assert (H3 : Loader.g_bytecode_count s + 2 <= MAX_BYTECODE_MODULES)
    by evaluate.
  assert (H4 : find (Some "dup") s = Some NULL) by evaluate.
  assert (H5 : 7%N <> NULL) by evaluate.
  assert (H6 : 8%N <> NULL) by evaluate.
  repeat (split; [assumption|]).
  exact (proj1 (duplicate_names s "dup" 7%N 8%N [] [] [] H1 H2 H3 H4 H5 H6)).
Defined.

Lemma init_idempotent_witness :
  let s := Example.running 4 in
  Loader.g_vm_initialized s = true /\
  (Loader.hako_init s).1 = 0%Z /\
  Loader.g_bytecode_count (Loader.hako_init s).2 = 2 /\
  Loader.vm (Loader.hako_init s).2 = Loader.vm s /\
  Loader.spawned (Loader.hako_init s).2 = 1.
Proof.
  intros s.
  assert (H1 : Loader.g_vm_initialized s = true) by evaluate.
  destruct (init_idempotent s H1)
    as (Hr & _ & Hcount & _ & _ & _ & _ & Hvm & Hsp & _).
  split; [assumption|]. split; [exact Hr|].
  split; [rewrite Hcount; evaluate|].
  split; [exact Hvm|]. rewrite Hsp. evaluate.
Defined.

Lemma run_semantics_witness :
  (Loader.g_vm_initialized (Example.booted 4) = false /\
   fst <$> Loader.hako_run (Example.booted 4) = Some (- EINVAL)%Z) /\
  (Loader.g_vm_initialized (Example.loaded 4) = true /\
   Loader.g_vm_thread_started (Example.loaded 4) = false /\
   Loader.hako_run (Example.loaded 4) = Some (0%Z, Example.running 4) /\
   Loader.spawned (Example.running 4) = S (Loader.spawned (Example.loaded 4)) /\
   Loader.hako_run (Example.running 4) = Some (0%Z, Example.running 4)) /\
  (Loader.g_vm_initialized (Example.initialised 4) = true /\
   find (Some "main") (Example.initialised 4) = Some NULL /\
   exists s1, Loader.hako_run (Example.initialised 4) = Some (0%Z, s1)).
Proof.
  destruct (@run_semantics Double.interpreter) as (Hbefore & Htwice & Hnomain).
  split; [|split].
  - assert (H1 : Loader.g_vm_initialized (Example.booted 4) = false)
      by evaluate.
    split; [assumption|]. by rewrite (Hbefore _ H1).
  - assert (H1 : Loader.g_vm_initialized (Example.loaded 4) = true)
      by evaluate.
    assert (H2 : Loader.g_vm_thread_started (Example.loaded 4) = false)
      by evaluate.
    assert (H3 : Loader.hako_run (Example.loaded 4)
                 = Some (0%Z, Example.running 4)) by evaluate.
    repeat (split; [assumption|]).
    exact (Htwice _ _ H1 H2 H3).
  - assert (H1 : Loader.g_vm_initialized (Example.initialised 4) = true)
      by evaluate.
    assert (H2 : find (Some "main") (Example.initialised 4) = Some NULL)
      by evaluate.
    repeat (split; [assumption|]).
    destruct (Hnomain _ H1 H2) as (s1 & Hrun & _).
    exists s1. exact Hrun.
Defined.

Lemma run_failure_is_retried_witness :
  let s := Example.flaky_loaded in
  Loader.g_vm_initialized s = true /\
  Loader.g_vm_thread_started s = false /\
  find (Some "main") s = Some 11%N /\ 11%N <> NULL /\
  mrbc_create_task 11%N (Loader.vm s) = (NULL, Example.recovered) /\
  exists s1 s2,
    Loader.hako_run s = Some ((- ENOMEM)%Z, s1) /\
    Loader.g_vm_thread_started s1 = false /\
    Loader.spawned s1 = Loader.spawned s /\
    Loader.hako_run s1 = Some (0%Z, s2) /\
    Loader.g_vm_thread_started s2 = true /\
    Loader.spawned s2 = S (Loader.spawned s).
Proof.
  intros s.
  assert (H1 : Loader.g_vm_initialized s = true) by evaluate.
  assert (H2 : Loader.g_vm_thread_started s = false) by evaluate.
  assert (H3 : find (Some "main") s = Some 11%N) by evaluate.
  assert (H4 : 11%N <> NULL) by evaluate.
  assert (H5 : mrbc_create_task 11%N (Loader.vm s) = (NULL, Example.recovered))
    by evaluate.
  assert (H6 : mrbc_create_task 11%N Example.recovered
               = (1%N, (Double.create_task 11%N Example.recovered).2))
    by evaluate.
  assert (H7 : 1%N <> NULL) by evaluate.
  repeat (split; [assumption|]).
  destruct (run_failure_is_retried s 11%N Example.recovered H1 H2 H3 H4 H5)
    as (s1 & Hrun & _ & Hstarted & Hsp & _ & _ & _ & _ & _ & Hretry).
  destruct (Hretry _ _ H6 H7) as (s2 & Hrun2 & Hstarted2 & Hsp2 & _).
  exists s1, s2.
  exact (conj Hrun (conj Hstarted (conj Hsp (conj Hrun2 (conj Hstarted2 Hsp2))))).
Defined.

Lemma capacity_invariant_witness :
  Loader.g_bytecode_count (Example.booted 4) <= MAX_BYTECODE_MODULES /\
  (Loader.g_bytecode_count (Example.initialised 4) <= MAX_BYTECODE_MODULES /\
   step (LoadRegistry (Some (Example.batch 33)) 33) (Example.initialised 4)
     = Some (Example.full 4) /\
   Loader.g_bytecode_count (Example.full 4) <= MAX_BYTECODE_MODULES) /\
  (reachable (Example.full 4) /\
   Loader.g_bytecode_count (Example.full 4) <= MAX_BYTECODE_MODULES) /\
  (reachable (Example.initialised 4) /\
   Loader.g_vm_initialized (Example.initialised 4) = true /\
   Loader.hako_load_registry (Some (Example.batch 33)) 33 (Example.initialised 4)
     = Some ((- ENOMEM)%Z, Example.full 4) /\
   Loader.g_bytecode_count (Example.full 4) = MAX_BYTECODE_MODULES).
Proof.
  destruct (@capacity_invariant Double.interpreter)
    as (Hboot & Hstep & Hreach & Hfull).
  assert (H1 : Loader.g_bytecode_count (Example.initialised 4)
               <= MAX_BYTECODE_MODULES) by evaluate.
  assert (H2 : step (LoadRegistry (Some (Example.batch 33)) 33)
                 (Example.initialised 4) = Some (Example.full 4)) by evaluate.
  assert (H3 : reachable (Example.initialised 4))
    by apply reachable_initialised.
  assert (H4 : reachable (Example.full 4)).
  { destruct H3 as [m Hsteps]. exists m.
    exact (steps_step _ _ _ _ Hsteps H2). }
  assert (H5 : Loader.g_vm_initialized (Example.initialised 4) = true)
    by evaluate.
  assert (H6 : Loader.hako_load_registry (Some (Example.batch 33)) 33
                 (Example.initialised 4)
               = Some ((- ENOMEM)%Z, Example.full 4)) by evaluate.
  split; [apply Hboot|]. split; [|split].
  - exact (conj H1 (conj H2 (Hstep _ _ _ H1 H2))).
  - exact (conj H4 (Hreach _ H4)).
  - repeat (split; [assumption|]).
    destruct (Hfull _ _ _ _ _ H3 H5 H6) as [[Hzero _]|(_ & _ & Hcount)].
    + exfalso. vm_compute in Hzero. discriminate Hzero.
    + exact Hcount.
Defined.

(** ** The further properties at concrete inputs *)

#[local] Existing Instance Double.runner.

Lemma step_loaded :
  step (LoadRegistry (Some Example.main_and_utils) 2) (Example.initialised 4)
  = Some (Example.loaded 4).
Proof. evaluate. Qed.

Lemma step_running : step Run (Example.loaded 4) = Some (Example.running 4).
Proof. evaluate. Qed.

Lemma step_running_more :
  step (LoadRegistry (Some (Example.batch 3)) 3) (Example.running 4)
  = Some Example.running_more.
Proof. evaluate. Qed.

Lemma reachable_loaded : reachable (Example.loaded 4).
Proof.
  destruct (reachable_initialised 4) as [m Hsteps]. exists m.
  exact (steps_step _ _ _ _ Hsteps step_loaded).
Qed.

Lemma reachable_running : reachable (Example.running 4).
Proof.
  destruct reachable_loaded as [m Hsteps]. exists m.
  exact (steps_step _ _ _ _ Hsteps step_running).
Qed.

Lemma load_registry_rejects_witness :
  (Loader.g_vm_initialized (Example.booted 4) = false \/
   Some Example.main_and_utils = None) /\
  exists msg,
    Loader.hako_load_registry (Some Example.main_and_utils) 2 (Example.booted 4)
    = Some ((- EINVAL)%Z, Loader.klog LOG_ERR msg (Example.booted 4)).
Proof.
  assert (H1 : Loader.g_vm_initialized (Example.booted 4) = false \/
               Some Example.main_and_utils = None)
    by (left; evaluate).
  exact (conj H1 (load_registry_rejects (Some Example.main_and_utils) 2
                    (Example.booted 4) H1)).
Defined.

Lemma null_bytecode_is_skipped_witness :
  let s := Example.initialised 4 in
  wf s /\ Loader.g_vm_initialized s = true /\
  Forall (fun e => is_Some (name e)) Example.sparse /\
  length (filter (fun e => bytecode e <> NULL) Example.sparse)
    <= MAX_BYTECODE_MODULES - Loader.g_bytecode_count s /\
  exists s',
    Loader.hako_load_registry (Some Example.sparse) (length Example.sparse) s
      = Some (0%Z, s') /\
    active s' = active s ++ filter (fun e => bytecode e <> NULL) Example.sparse.
Proof.
  intros s.
  assert (H1 : wf s) by apply wf_initialised.
  assert (H2 : Loader.g_vm_initialized s = true) by evaluate.
  assert (H3 : Forall (fun e => is_Some (name e)) Example.sparse) by evaluate.
  assert (H4 : length (filter (fun e => bytecode e <> NULL) Example.sparse)
               <= MAX_BYTECODE_MODULES - Loader.g_bytecode_count s)
    by evaluate.
  exact (conj H1 (conj H2 (conj H3 (conj H4
           (null_bytecode_is_skipped Example.sparse s H1 H2 H3 H4))))).
Defined.

Lemma null_name_ends_the_table_witness :
  let entries := take 2 Example.main_and_utils in
  Forall (fun e => is_Some (name e)) entries /\
  length entries <= 5 /\
  Loader.hako_load_registry
    (Some (entries ++ BytecodeEntry None NULL :: Example.batch 3)) 5
    (Example.initialised 4) =
  Loader.hako_load_registry (Some entries) (length entries)
    (Example.initialised 4).
Proof.
  intros entries.
  assert (H1 : Forall (fun e => is_Some (name e)) entries) by evaluate.
  assert (H2 : length entries <= 5) by evaluate.
  exact (conj H1 (conj H2
           (null_name_ends_the_table entries NULL (Example.batch 3) 5
              (Example.initialised 4) H1 H2))).
Defined.

Lemma lookup_first_registered_witness :
  reachable (Example.loaded 4) /\
  exists bc,
    find (Some "utils") (Example.loaded 4) = Some bc /\
    (bc = NULL <-> Some "utils" ∉ name <$> active (Example.loaded 4)).
Proof.
  assert (H1 : reachable (Example.loaded 4)) by apply reachable_loaded.
  split; [assumption|].
  destruct (lookup_first_registered (Example.loaded 4) "utils" H1)
    as (bc & Hfind & Hnull & _).
  exists bc. exact (conj Hfind Hnull).
Defined.

Lemma registry_only_grows_witness :
  reachable (Example.loaded 4) /\
  Loader.g_vm_initialized (Example.loaded 4) = true /\
  steps (Example.loaded 4) Example.running_more /\
  Loader.g_vm_initialized Example.running_more = true /\
  active (Example.loaded 4) `prefix_of` active Example.running_more /\
  Loader.g_bytecode_count (Example.loaded 4)
    <= Loader.g_bytecode_count Example.running_more.
Proof.
  assert (H1 : reachable (Example.loaded 4)) by apply reachable_loaded.
  assert (H2 : Loader.g_vm_initialized (Example.loaded 4) = true) by evaluate.
  assert (H3 : steps (Example.loaded 4) Example.running_more).
  { exact (steps_step _ _ _ _
             (steps_step _ _ _ _ (steps_refl _) step_running)
             step_running_more). }
  destruct (registry_only_grows _ _ H1 H2 H3) as (Hinit & Hpre & Hcount & _).
  exact (conj H1 (conj H2 (conj H3 (conj Hinit (conj Hpre Hcount))))).
Defined.

Lemma loading_twice_registers_twice_witness :
  let s := Example.initialised 4 in
  wf s /\ Loader.g_vm_initialized s = true /\ Loader.g_bytecode_count s = 0 /\
  Forall valid_entry (Example.batch 20) /\
  length (Example.batch 20) <= MAX_BYTECODE_MODULES /\
  exists s1 s2,
    Loader.hako_load_registry (Some (Example.batch 20))
      (length (Example.batch 20)) s = Some (0%Z, s1) /\
    Loader.hako_load_registry (Some (Example.batch 20))
      (length (Example.batch 20)) s1 = Some ((- ENOMEM)%Z, s2) /\
    active s2 = take MAX_BYTECODE_MODULES (Example.batch 20 ++ Example.batch 20).
Proof.
  intros s.
  assert (H1 : wf s) by apply wf_initialised.
  assert (H2 : Loader.g_vm_initialized s = true) by evaluate.
  assert (H3 : Loader.g_bytecode_count s = 0) by evaluate.
  assert (H4 : Forall valid_entry (Example.batch 20)) by evaluate.
  assert (H5 : length (Example.batch 20) <= MAX_BYTECODE_MODULES) by evaluate.
  repeat (split; [assumption|]).
  destruct (loading_twice_registers_twice s (Example.batch 20) H1 H2 H3 H4 H5)
    as (s1 & s2 & Hload1 & Hload2 & Hact & _).
  exists s1, s2. exact (conj Hload1 (conj Hload2 Hact)).
Defined.

Lemma one_supervisor_thread_witness :
  reachable (Example.running 4) /\
  Loader.spawned (Example.running 4) =
    (if Loader.g_vm_thread_started (Example.running 4) then 1 else 0).
Proof.
  assert (H1 : reachable (Example.running 4)) by apply reachable_running.
  exact (conj H1 (proj1 (one_supervisor_thread (Example.running 4) H1))).
Defined.

Lemma supervisor_is_never_stopped_witness :
  reachable (Example.running 4) /\
  Loader.g_vm_thread_started (Example.running 4) = true /\
  steps (Example.running 4) Example.running_more /\
  Loader.g_vm_thread_started Example.running_more = true /\
  Loader.spawned Example.running_more = 1 /\
  Loader.hako_run Example.running_more = Some (0%Z, Example.running_more).
Proof.
  assert (H1 : reachable (Example.running 4)) by apply reachable_running.
  assert (H2 : Loader.g_vm_thread_started (Example.running 4) = true)
    by evaluate.
  assert (H3 : steps (Example.running 4) Example.running_more)
    by exact (steps_step _ _ _ _ (steps_refl _) step_running_more).
  exact (conj H1 (conj H2 (conj H3
           (supervisor_is_never_stopped _ _ H1 H2 H3)))).
Defined.

Lemma shared_vm_is_kept_witness :
  reachable (Example.running 4) /\
  Loader.g_vm (Example.running 4) <> NULL /\
  steps (Example.running 4) Example.running_more /\
  Loader.hako_get_vm Example.running_more = Loader.g_vm (Example.running 4).
Proof.
  assert (H1 : reachable (Example.running 4)) by apply reachable_running.
  assert (H2 : Loader.g_vm (Example.running 4) <> NULL) by evaluate.
  assert (H3 : steps (Example.running 4) Example.running_more)
    by exact (steps_step _ _ _ _ (steps_refl _) step_running_more).
  exact (conj H1 (conj H2 (conj H3 (shared_vm_is_kept _ _ H1 H2 H3)))).
Defined.

Lemma run_loads_main_witness :
  let s := Example.loaded 4 in
  let m1 := (Double.create_task 11%N (Loader.vm s)).2 in
  Loader.g_vm_initialized s = true /\
  Loader.g_vm_thread_started s = false /\
  find (Some "main") s = Some 11%N /\ 11%N <> NULL /\
  mrbc_create_task 11%N (Loader.vm s) = (1%N, m1) /\ 1%N <> NULL /\
  exists s',
    Loader.hako_run s = Some (0%Z, s') /\
    Loader.g_vm_thread_started s' = true /\
    Loader.spawned s' = S (Loader.spawned s) /\
    Loader.vm s' = mrbc_set_task_name 1%N "main" m1.
Proof.
  intros s m1.
  assert (H1 : Loader.g_vm_initialized s = true) by evaluate.
  assert (H2 : Loader.g_vm_thread_started s = false) by evaluate.
  assert (H3 : find (Some "main") s = Some 11%N) by evaluate.
  assert (H4 : 11%N <> NULL) by evaluate.
  assert (H5 : mrbc_create_task 11%N (Loader.vm s) = (1%N, m1)) by evaluate.
  assert (H6 : 1%N <> NULL) by evaluate.
  repeat (split; [assumption|]).
  destruct (run_loads_main s 11%N 1%N m1 H1 H2 H3 H4 H5 H6)
    as (s' & Hrun & Hst & Hsp & Hvm & _).
  exists s'. exact (conj Hrun (conj Hst (conj Hsp Hvm))).
Defined.

Lemma late_main_is_not_loaded_witness :
  let s := Example.initialised 4 in
  wf s /\ Loader.g_vm_initialized s = true /\
  Loader.g_vm_thread_started s = false /\
  find (Some "main") s = Some NULL /\
  2 <= length Example.main_and_utils /\
  exists s1 r s2,
    Loader.hako_run s = Some (0%Z, s1) /\
    Loader.hako_load_registry (Some Example.main_and_utils) 2 s1 = Some (r, s2) /\
    Loader.hako_run s2 = Some (0%Z, s2) /\
    Loader.vm s2 = Loader.vm s.
Proof.
  intros s.
  assert (H1 : wf s) by apply wf_initialised.
  assert (H2 : Loader.g_vm_initialized s = true) by evaluate.
  assert (H3 : Loader.g_vm_thread_started s = false) by evaluate.
  assert (H4 : find (Some "main") s = Some NULL) by evaluate.
  assert (H5 : 2 <= length Example.main_and_utils) by evaluate.
  exact (conj H1 (conj H2 (conj H3 (conj H4 (conj H5
           (late_main_is_not_loaded s Example.main_and_utils 2
              H1 H2 H3 H4 H5)))))).
Defined.

Lemma section_order_walk_witness :
  Forall (fun ext => is_Some (init ext)) Example.four_priorities /\
  exists s',
    Loader.hako_init_extensions Example.four_priorities (Example.initialised 4)
      = Some s' /\
    Loader.ext_invoked s' = [0; 1; 2; 3] /\
    Double.called (Loader.vm s') = [1%N; 2%N; 3%N; 4%N].
Proof.
  assert (H1 : Forall (fun ext => is_Some (init ext)) Example.four_priorities)
    by evaluate.
  split; [assumption|].
  destruct (section_order_walk Example.four_priorities (Example.initialised 4) H1)
    as (s' & Hwalk & Htrace & Hvm & _).
  exists s'. split; [exact Hwalk|]. split; [exact Htrace|].
  rewrite Hvm. evaluate.
Defined.

Lemma first_init_postcondition_witness :
  Loader.g_vm_initialized (Example.booted 4) = false /\
  (Loader.hako_init (Example.booted 4)).1 = 0%Z /\
  Loader.g_bytecode_count (Loader.hako_init (Example.booted 4)).2 = 0 /\
  Loader.g_core_methods_registered (Loader.hako_init (Example.booted 4)).2 = true.
Proof.
  assert (H1 : Loader.g_vm_initialized (Example.booted 4) = false) by evaluate.
  destruct (first_init_postcondition (Example.booted 4) H1)
    as (Hr & _ & Hcore & _ & Hcount & _).
  exact (conj H1 (conj Hr (conj Hcount Hcore))).
Defined.

Lemma original_init_out_of_memory_witness :
  let s := Example.original_starved in
  Original.g_vm_initialized s = false /\
  @mrbc_vm_open Double.starved
    (mrbc_init_class (mrbc_init_global (mrbc_init_alloc (Original.vm s))))
    = (NULL, Double.fresh 4) /\
  exists s',
    @Original.hako_init Double.starved 7 [Example.zephyr_gpio] s
      = Original.Returned ((- ENOMEM)%Z, s') /\
    Original.g_vm_initialized s' = false /\
    Original.ext_invoked s' = Original.ext_invoked s.
Proof.
  intros s.
  assert (H1 : Original.g_vm_initialized s = false) by evaluate.
  assert (H2 : @mrbc_vm_open Double.starved
                 (mrbc_init_class
                    (mrbc_init_global (mrbc_init_alloc (Original.vm s))))
               = (NULL, Double.fresh 4)) by evaluate.
  repeat (split; [assumption|]).
  destruct (@original_init_out_of_memory Double.starved Double.starved_runner
              7 [Example.zephyr_gpio] s (Double.fresh 4) H1 H2)
    as (s' & Hrun & Hinit & _ & _ & _ & Hext & _).
  exists s'. exact (conj Hrun (conj Hinit Hext)).
Defined.

Lemma original_init_returns_only_for_empty_section_witness :
  let s := Example.original_booted in
  Original.g_vm_initialized s = false /\
  mrbc_vm_open
    (mrbc_init_class (mrbc_init_global (mrbc_init_alloc (Original.vm s))))
    = (1%N, Double.fresh 4) /\
  1%N <> NULL /\
  (exists s',
     Original.hako_init 7 [] s = Original.Returned (0%Z, s') /\
     Original.g_vm_initialized s' = true) /\
  (exists s',
     Original.hako_init 7 [Example.zephyr_gpio] s = Original.Looping s' /\
     Original.g_vm_initialized s' = true).
Proof.
  intros s.
  assert (H1 : Original.g_vm_initialized s = false) by evaluate.
  assert (H2 : mrbc_vm_open
                 (mrbc_init_class
                    (mrbc_init_global (mrbc_init_alloc (Original.vm s))))
               = (1%N, Double.fresh 4)) by evaluate.
  assert (H3 : 1%N <> NULL) by evaluate.
  repeat (split; [assumption|]).
  split.
  - destruct (proj1 (original_init_returns_only_for_empty_section
                       7 [] s 1%N (Double.fresh 4) H1 H2 H3) eq_refl)
      as (s' & Hrun & Hinit & _).
    exists s'. exact (conj Hrun Hinit).
  - assert (H4 : [Example.zephyr_gpio] <> []) by discriminate.
    destruct (proj2 (original_init_returns_only_for_empty_section
                       7 [Example.zephyr_gpio] s 1%N (Double.fresh 4)
                       H1 H2 H3) H4)
      as (s' & Hrun & Hinit & _).
    exists s'. exact (conj Hrun Hinit).
Defined.

Lemma loaders_share_registry_behaviour_witness :
  registry_agrees Example.original_initialised (Example.initialised 4) /\
  match Blocking.hako_load_registry (Some Example.main_and_utils) 2
          Example.original_initialised,
        Loader.hako_load_registry (Some Example.main_and_utils) 2
          (Example.initialised 4) with
  | Some (ro, o'), Some (rt, t') => ro = rt /\ registry_agrees o' t'
  | None, None => True
  | _, _ => False
  end.
Proof.
  assert (H1 : registry_agrees Example.original_initialised
                 (Example.initialised 4))
    by (repeat split; evaluate).
  exact (conj H1
           (proj1 (loaders_share_registry_behaviour _ _ H1)
              (Some Example.main_and_utils) 2)).
Defined.

Lemma original_round_trip_witness :
  let s := Example.original_booted in
  length (Original.g_bytecode_registry s) = MAX_BYTECODE_MODULES /\
  Original.g_vm_initialized s = false /\
  mrbc_vm_open
    (mrbc_init_class (mrbc_init_global (mrbc_init_alloc (Original.vm s))))
    = (1%N, Double.fresh 4) /\
  1%N <> NULL /\
  Forall valid_entry (Example.batch 3) /\
  NoDup (name <$> Example.batch 3) /\
  length (Example.batch 3) <= MAX_BYTECODE_MODULES /\
  exists s1 s2,
    Original.hako_init 7 [] s = Original.Returned (0%Z, s1) /\
    Blocking.hako_load_registry (Some (Example.batch 3 ++ [empty_slot]))
      (length (Example.batch 3)) s1 = Some (0%Z, s2) /\
    (forall e, e ∈ Example.batch 3 ->
       fst <$> Blocking.hako_find_bytecode (name e) s2 = Some (bytecode e)).
Proof.
  intros s.
  assert (H1 : length (Original.g_bytecode_registry s) = MAX_BYTECODE_MODULES)
    by evaluate.
  assert (H2 : Original.g_vm_initialized s = false) by evaluate.
  assert (H3 : mrbc_vm_open
                 (mrbc_init_class
                    (mrbc_init_global (mrbc_init_alloc (Original.vm s))))
               = (1%N, Double.fresh 4)) by evaluate.
  assert (H4 : 1%N <> NULL) by evaluate.
  assert (H5 : Forall valid_entry (Example.batch 3)) by evaluate.
  assert (H6 : NoDup (name <$> Example.batch 3)) by evaluate.
  assert (H7 : length (Example.batch 3) <= MAX_BYTECODE_MODULES) by evaluate.
  repeat (split; [assumption|]).
  destruct (original_round_trip 7 s 1%N (Double.fresh 4) (Example.batch 3)
              [empty_slot] H1 H2 H3 H4 H5 H6 H7)
    as (s1 & s2 & Hinit & Hload & Hfind & _).
  exists s1, s2. exact (conj Hinit (conj Hload Hfind)).
Defined.

Lemma walk_is_not_guarded_witness :
  Forall (fun ext => is_Some (init ext)) [Example.zephyr_gpio] /\
  exists s1 s2,
    Loader.hako_init_extensions [Example.zephyr_gpio] (Example.initialised 4)
      = Some s1 /\
    Loader.hako_init_extensions [Example.zephyr_gpio] s1 = Some s2 /\
    Loader.ext_invoked s2 = [0; 0] /\
    Double.called (Loader.vm s2) = [1%N; 1%N].
Proof.
  assert (H1 : Forall (fun ext => is_Some (init ext)) [Example.zephyr_gpio])
    by evaluate.
  split; [assumption|].
  destruct (walk_is_not_guarded [Example.zephyr_gpio] (Example.initialised 4) H1)
    as (s1 & s2 & Hwalk1 & Hwalk2 & Htrace & Hvm).
  exists s1, s2. split; [exact Hwalk1|]. split; [exact Hwalk2|].
  split; [rewrite Htrace; evaluate | rewrite Hvm; evaluate].
Defined.
